(** * Daly 16S BMS poller: Modbus RTU framing, register decoding, fault bits

    A shallow embedding of [address.py], [new_main.py] and [main.py].
    Python integers are [Z]; a [bytes] object is a [list Z] whose elements
    lie in 0..255; Python exceptions are the [Raise] branch of [result];
    the serial port, the console and the wall clock are an explicit
    [World] threaded through the stateful functions. *)

From Stdlib Require Import ZArith List String Bool Lia Floats.
Import ListNotations.
Open Scope Z_scope.

(** ** Python runtime pieces used by the scripts *)

(** The exceptions the scripts can raise on their own data. *)
Inductive exn : Type :=
| IndexError
| StructError
| ValueError
| ZeroDivisionError.

Inductive result (A : Type) : Type :=
| Ok (a : A)
| Raise (e : exn).
Arguments Ok {A} a.
Arguments Raise {A} e.

Definition bind {A B : Type} (m : result A) (k : A -> result B) : result B :=
  match m with
  | Ok a => k a
  | Raise e => Raise e
  end.

Notation "x <- m ;; k" := (bind m (fun x => k))
  (at level 61, m at next level, right associativity).

(** [len(xs)] as a Python integer. *)
Definition len {A : Type} (xs : list A) : Z := Z.of_nat (List.length xs).

(** [xs[i]] for a non-negative index: IndexError when out of range. *)
Definition index {A : Type} (xs : list A) (i : nat) : result A :=
  match nth_error xs i with
  | Some x => Ok x
  | None => Raise IndexError
  end.

(** [xs[a:b]] for non-negative bounds: never raises, clips to the list. *)
Definition slice {A : Type} (xs : list A) (a b : Z) : list A :=
  firstn (Z.to_nat (b - a)) (skipn (Z.to_nat a) xs).

Definition is_byte (b : Z) : Prop := 0 <= b <= 255.
Definition is_u16 (v : Z) : Prop := 0 <= v <= 65535.

(** [float(z)] for an integer that a binary64 holds exactly (|z| < 2^53;
    every value the scripts divide is below 2^17). *)
Definition float_of_int (z : Z) : float :=
  if z <? 0
  then PrimFloat.opp (PrimFloat.of_uint63 (Uint63.of_Z (- z)))
  else PrimFloat.of_uint63 (Uint63.of_Z z).

(** [z / 10.0]: Python's true division of an integer by the float 10.0. *)
Definition div10 (z : Z) : float := PrimFloat.div (float_of_int z) 10%float.

(** [z / 1000.0] *)
Definition div1000 (z : Z) : float := PrimFloat.div (float_of_int z) 1000%float.

(** Truth value of an object that is [None] or a list. *)
Definition truthy {A : Type} (o : option (list A)) : bool :=
  match o with
  | Some (_ :: _) => true
  | _ => false
  end.

(** [min(xs)] and [max(xs)]: ValueError on the empty list. *)
Definition py_min (xs : list Z) : result Z :=
  match xs with
  | [] => Raise ValueError
  | x :: rest => Ok (fold_left Z.min rest x)
  end.

Definition py_max (xs : list Z) : result Z :=
  match xs with
  | [] => Raise ValueError
  | x :: rest => Ok (fold_left Z.max rest x)
  end.

(** [sum(xs)] *)
Definition py_sum (xs : list Z) : Z := fold_left Z.add xs 0.

(** [x / n] for a float [x] and an integer [n]. *)
Definition float_div_int (x : float) (n : Z) : result float :=
  if n =? 0 then Raise ZeroDivisionError
  else Ok (PrimFloat.div x (float_of_int n)).

(** [d[key] = value] on an insertion-ordered dict with string keys: an
    existing key keeps its place and takes the new value. *)
Fixpoint dict_set {V : Type} (d : list (string * V)) (key : string) (value : V)
  : list (string * V) :=
  match d with
  | [] => [(key, value)]
  | (k, v) :: rest =>
      if String.eqb k key then (k, value) :: rest
      else (k, v) :: dict_set rest key value
  end.

(** ** The [struct] module, for the four formats the scripts use *)
Module Struct.

Definition in_range (lo hi v : Z) : bool := (lo <=? v) && (v <=? hi).

(** [struct.pack('B', v)] *)
Definition pack_B (v : Z) : result (list Z) :=
  if in_range 0 255 v then Ok [v] else Raise StructError.

(** [struct.pack('>H', v)]: high byte first. *)
Definition pack_H_be (v : Z) : result (list Z) :=
  if in_range 0 65535 v
  then Ok [Z.shiftr v 8; Z.land v 255]
  else Raise StructError.

(** [struct.pack('<H', v)]: low byte first. *)
Definition pack_H_le (v : Z) : result (list Z) :=
  if in_range 0 65535 v
  then Ok [Z.land v 255; Z.shiftr v 8]
  else Raise StructError.

(** [struct.pack('>BBHH', a, b, c, d)] *)
Definition pack_BBHH (a b c d : Z) : result (list Z) :=
  ba <- pack_B a ;;
  bb <- pack_B b ;;
  bc <- pack_H_be c ;;
  bd <- pack_H_be d ;;
  Ok (ba ++ bb ++ bc ++ bd).

(** [struct.unpack('>H', buf)[0]]: the buffer must hold exactly 2 bytes. *)
Definition unpack_H_be (buf : list Z) : result Z :=
  match buf with
  | [hi; lo] => Ok (Z.lor (Z.shiftl hi 8) lo)
  | _ => Raise StructError
  end.

End Struct.

(** ** [calculate_crc] (identical in [main.py] and [new_main.py]) *)

(** One pass of the inner [for _ in range(8)] loop body. *)
Definition crc_shift (crc : Z) : Z :=
  if Z.land crc 1 =? 0
  then Z.shiftr crc 1
  else Z.lxor (Z.shiftr crc 1) 0xA001.

Fixpoint crc_shifts (n : nat) (crc : Z) : Z :=
  match n with
  | O => crc
  | S k => crc_shifts k (crc_shift crc)
  end.

(** The body of the outer [for byte in data] loop. *)
Definition crc_byte (crc byte : Z) : Z := crc_shifts 8 (Z.lxor crc byte).

(** The value of the local [crc] when the outer loop ends. *)
Definition crc_register (data : list Z) : Z := fold_left crc_byte data 0xFFFF.

Definition calculate_crc (data : list Z) : result (list Z) :=
  Struct.pack_H_le (crc_register data).

(** ** The serial port, the console and the clock *)

(** What the battery lines on the console carry: the first three are
    printed by [new_main.py], the last two by [main.py]. *)
Inductive Line : Type :=
| DataRow (name : string) (voltage current soc : float) (status : string)
          (min_v max_v diff_v : Z) (cell_temps : list Z)
| FaultsLine (faults : list string)
| TimeoutRow (name : string)
| OverviewRow (name : string) (total_v avg_v : float) (min_cell max_cell delta : Z)
| NoBatteries.

(** [rx] is the arrival schedule of the port: its head is what
    [ser.in_waiting] offers at the next iteration of a receive loop (the
    empty chunk is an iteration that finds nothing waiting), and an
    exhausted schedule is a silent line.  [tx] logs every [ser.write], and
    [out] every row printed, oldest first. *)
Record World : Type := mkWorld {
  rx : list (list Z);
  tx : list (list Z);
  out : list Line
}.

(** [if ser.in_waiting > 0: response += ser.read(ser.in_waiting)] *)
Definition ser_poll (w : World) : list Z * World :=
  match rx w with
  | [] => ([], w)
  | chunk :: later => (chunk, mkWorld later (tx w) (out w))
  end.

Definition ser_write (request : list Z) (w : World) : World :=
  mkWorld (rx w) (tx w ++ [request]) (out w).

Definition print (l : Line) (w : World) : World :=
  mkWorld (rx w) (tx w) (out w ++ [l]).

(** Stateful code runs in [M]: it may raise, and the world it has changed
    up to that point stays changed. *)
Definition M (A : Type) : Type := World -> result A * World.

Definition retM {A : Type} (a : A) : M A := fun w => (Ok a, w).

Definition bindM {A B : Type} (m : M A) (k : A -> M B) : M B :=
  fun w =>
    match m w with
    | (Ok a, w') => k a w'
    | (Raise e, w') => (Raise e, w')
    end.

Definition lift {A : Type} (r : result A) : M A := fun w => (r, w).

Definition say (l : Line) : M unit := fun w => (Ok tt, print l w).

Notation "x <~ m ;; k" := (bindM m (fun x => k))
  (at level 61, m at next level, right associativity).
Notation "m ;;; k" := (bindM m (fun _ => k))
  (at level 61, right associativity).

(** [for x in xs: body(x)] *)
Fixpoint for_each {A : Type} (xs : list A) (body : A -> M unit) : M unit :=
  match xs with
  | [] => retM tt
  | x :: rest => body x ;;; for_each rest body
  end.

(** ** [send_modbus_request] (identical in both scripts up to the sleep) *)

(** The bytes handed to [ser.write]. *)
Definition request_frame (slave_id function_code start_addr count : Z)
  : result (list Z) :=
  frame <- Struct.pack_BBHH slave_id function_code start_addr count ;;
  crc <- calculate_crc frame ;;
  Ok (frame ++ crc).

Definition send_modbus_request (slave_id function_code start_addr count : Z)
  : M unit :=
  request <~ lift (request_frame slave_id function_code start_addr count) ;;
  fun w => (Ok tt, ser_write request w).

(** ** The register loop of [read_modbus_response] (same text in both scripts)

    [for i in range(0, byte_count, 2)] runs [(byte_count + 1) // 2] times
    with [i = 0, 2, 4, ...]; each pass unpacks [data[i:i+2]]. *)
Fixpoint unpack_from (passes : nat) (i : Z) (data registers : list Z)
  : result (list Z) :=
  match passes with
  | O => Ok registers
  | S passes' =>
      reg_value <- Struct.unpack_H_be (slice data i (i + 2)) ;;
      unpack_from passes' (i + 2) data (registers ++ [reg_value])
  end.

Definition extract_registers (byte_count : Z) (data : list Z)
  : result (list Z) :=
  unpack_from (Z.to_nat ((byte_count + 1) / 2)) 0 data [].

(** ** [address.py] *)
Module address.

Definition BATT_TEMP_START_ADDRESS : Z := 0x30.
Definition BATT_TEMP_REGISTER_COUNT : Z := 8.

Definition BATT_TEMP_OFFSET_CELL_1 : nat := 0.
Definition BATT_TEMP_OFFSET_CELL_2 : nat := 1.
Definition BATT_TEMP_OFFSET_CELL_3 : nat := 2.
Definition BATT_TEMP_OFFSET_CELL_4 : nat := 3.

Definition START_ADDRESS : Z := 0x38.
Definition REGISTER_COUNT : Z := 50.

Definition OFFSET_VOLTAGE : nat := 0.
Definition OFFSET_CURRENT : nat := 1.
Definition OFFSET_SOC : nat := 2.
Definition OFFSET_MAX_CELL_V : nat := 6.
Definition OFFSET_MIN_CELL_V : nat := 8.
Definition OFFSET_DIFF_CELL_V : nat := 10.
Definition OFFSET_CHG_DISCHG_STATUS : nat := 16.
Definition OFFSET_REMAINING_CAP : nat := 19.
Definition OFFSET_CYCLES : nat := 20.
Definition OFFSET_FAULT_1 : nat := 46.
Definition OFFSET_FAULT_2 : nat := 47.
Definition OFFSET_FAULT_3 : nat := 48.
Definition OFFSET_FAULT_4 : nat := 49.

Definition CURRENT_OFFSET : Z := 30000.
Definition TEMP_OFFSET : Z := 40.

(** [if cond: faults.append(label)], where a Python integer is true
    when it is not zero. *)
Definition append_if (cond : Z) (label : string) (faults : list string)
  : list string :=
  if cond =? 0 then faults else faults ++ [label].

Definition get_fault_list (f1 f2 f3 f4 : Z) : list string :=
  let faults := [] in
  let f1_msb := Z.land (Z.shiftr f1 8) 0xFF in
  let f1_lsb := Z.land f1 0xFF in
  let faults := append_if (Z.land f1_msb 0x01) "Cell V High L1" faults in
  let faults := append_if (Z.land f1_msb 0x02) "Cell V High L2" faults in
  let faults := append_if (Z.land f1_msb 0x04) "Cell V Low L1" faults in
  let faults := append_if (Z.land f1_msb 0x08) "Cell V Low L2" faults in
  let faults := append_if (Z.land f1_msb 0x10) "Pack V High L1" faults in
  let faults := append_if (Z.land f1_msb 0x20) "Pack V High L2" faults in
  let faults := append_if (Z.land f1_msb 0x40) "Pack V Low L1" faults in
  let faults := append_if (Z.land f1_msb 0x80) "Pack V Low L2" faults in
  let faults := append_if (Z.land f1_lsb 0x01) "Chg Temp High L1" faults in
  let faults := append_if (Z.land f1_lsb 0x02) "Chg Temp High L2" faults in
  let faults := append_if (Z.land f1_lsb 0x04) "Chg Temp Low L1" faults in
  let faults := append_if (Z.land f1_lsb 0x08) "Chg Temp Low L2" faults in
  let faults := append_if (Z.land f1_lsb 0x10) "Dischg Temp High L1" faults in
  let faults := append_if (Z.land f1_lsb 0x20) "Dischg Temp High L2" faults in
  let faults := append_if (Z.land f1_lsb 0x40) "Dischg Temp Low L1" faults in
  let faults := append_if (Z.land f1_lsb 0x80) "Dischg Temp Low L2" faults in
  let f2_msb := Z.land (Z.shiftr f2 8) 0xFF in
  let f2_lsb := Z.land f2 0xFF in
  let faults := append_if (Z.land f2_msb 0x01) "Chg Overcur L1" faults in
  let faults := append_if (Z.land f2_msb 0x02) "Chg Overcur L2" faults in
  let faults := append_if (Z.land f2_msb 0x04) "Dischg Overcur L1" faults in
  let faults := append_if (Z.land f2_msb 0x08) "Dischg Overcur L2" faults in
  let faults := append_if (Z.land f2_msb 0x10) "SOC High L1" faults in
  let faults := append_if (Z.land f2_msb 0x20) "SOC High L2" faults in
  let faults := append_if (Z.land f2_msb 0x40) "SOC Low L1" faults in
  let faults := append_if (Z.land f2_msb 0x80) "SOC Low L2" faults in
  let faults := append_if (Z.land f2_lsb 0x01) "Diff V High L1" faults in
  let faults := append_if (Z.land f2_lsb 0x02) "Diff V High L2" faults in
  let faults := append_if (Z.land f2_lsb 0x04) "Diff Temp High L1" faults in
  let faults := append_if (Z.land f2_lsb 0x08) "Diff Temp High L2" faults in
  let faults := append_if (Z.land f2_lsb 0x10) "MOS Temp High L1" faults in
  let faults := append_if (Z.land f2_lsb 0x20) "MOS Temp High L2" faults in
  let faults := append_if (Z.land f2_lsb 0x40) "Amb Temp High L1" faults in
  let faults := append_if (Z.land f2_lsb 0x80) "Amb Temp High L2" faults in
  let f3_msb := Z.land (Z.shiftr f3 8) 0xFF in
  let f3_lsb := Z.land f3 0xFF in
  let faults := append_if (Z.land f3_msb 0x01) "Chg MOS Temp Warn" faults in
  let faults := append_if (Z.land f3_msb 0x02) "Dischg MOS Temp Warn" faults in
  let faults := append_if (Z.land f3_msb 0x04) "Chg MOS Sensor Fail" faults in
  let faults := append_if (Z.land f3_msb 0x08) "Dischg MOS Sensor Fail" faults in
  let faults := append_if (Z.land f3_msb 0x10) "Chg MOS Adhesion" faults in
  let faults := append_if (Z.land f3_msb 0x20) "Dischg MOS Adhesion" faults in
  let faults := append_if (Z.land f3_msb 0x40) "Chg MOS Open Circ" faults in
  let faults := append_if (Z.land f3_msb 0x80) "Dischg MOS Open Circ" faults in
  let faults := append_if (Z.land f3_lsb 0x01) "AFE Fail" faults in
  let faults := append_if (Z.land f3_lsb 0x02) "Volt Sensor Disconn" faults in
  let faults := append_if (Z.land f3_lsb 0x04) "Temp Sensor Fail" faults in
  let faults := append_if (Z.land f3_lsb 0x08) "EEPROM Fail" faults in
  let faults := append_if (Z.land f3_lsb 0x10) "RTC Fail" faults in
  let faults := append_if (Z.land f3_lsb 0x20) "Precharge Fail" faults in
  let faults := append_if (Z.land f3_lsb 0x40) "Veh Comm Fail" faults in
  let faults := append_if (Z.land f3_lsb 0x80) "Int Net Fail" faults in
  let f4_msb := Z.land (Z.shiftr f4 8) 0xFF in
  let faults := append_if (Z.land f4_msb 0x01) "Curr Mod Fail" faults in
  let faults := append_if (Z.land f4_msb 0x02) "Press Mod Fail" faults in
  let faults := append_if (Z.land f4_msb 0x04) "Short Circ" faults in
  let faults := append_if (Z.land f4_msb 0x08) "Low V Chg Prohibit" faults in
  let faults := append_if (Z.land f4_msb 0x10) "GPS/Switch MOS" faults in
  let faults := append_if (Z.land f4_msb 0x20) "Chg Cab Offline" faults in
  faults.

End address.

(** ** [new_main.py] *)
Module new_main.

Definition BATTERIES : list (Z * Z * string) :=
  [ (0x81, 0x51, "Battery 1"%string);
    (0x82, 0x52, "Battery 2"%string);
    (0x83, 0x53, "Battery 3"%string) ].

(** The test that ends an iteration of the receive loop; [true] is the
    [break].  Indices 1 and 2 are read only under [len(response) >= 5]. *)
Definition frame_complete (response : list Z) : bool :=
  if 5 <=? len response then
    if nth 1 response 0 =? 0x03 then
      let byte_count := nth 2 response 0 in
      let expected_len := 5 + byte_count in
      expected_len <=? len response
    else if 0x80 <=? nth 1 response 0 then
      5 <=? len response
    else false
  else false.

(** [while time.time() - start_time < timeout]: [ticks] is the number of
    iterations the clock allows before the deadline. *)
Fixpoint receive (ticks : nat) (response : list Z) (w : World)
  : list Z * World :=
  match ticks with
  | O => (response, w)
  | S ticks' =>
      let (chunk, w') := ser_poll w in
      let response' := response ++ chunk in
      if frame_complete response' then (response', w')
      else receive ticks' response' w'
  end.

(** The part after the loop, from [if response:] on.  The result is
    [Some registers], or [None] for Python's [None]. *)
Definition parse_response (response : list Z) : result (option (list Z)) :=
  match response with
  | [] => Ok None
  | _ :: _ =>
      slave_id <- index response 0 ;;
      function_code <- index response 1 ;;
      if 0x80 <=? function_code then Ok None
      else if function_code =? 0x03 then
        byte_count <- index response 2 ;;
        let data := slice response 3 (3 + byte_count) in
        registers <- extract_registers byte_count data ;;
        Ok (Some registers)
      else Ok None
  end.

Definition read_modbus_response (ticks : nat) : M (option (list Z)) :=
  fun w =>
    let (response, w') := receive ticks [] w in
    (parse_response response, w').

(** Lines 124-135 of [main]: the cell temperatures of one battery. *)
Definition cell_temps_of (temp_registers : option (list Z))
  : result (list Z) :=
  match temp_registers with
  | Some regs =>
      if truthy temp_registers && (4 <=? len regs) then
        r1 <- index regs address.BATT_TEMP_OFFSET_CELL_1 ;;
        r2 <- index regs address.BATT_TEMP_OFFSET_CELL_2 ;;
        r3 <- index regs address.BATT_TEMP_OFFSET_CELL_3 ;;
        r4 <- index regs address.BATT_TEMP_OFFSET_CELL_4 ;;
        Ok [ r1 - address.TEMP_OFFSET; r2 - address.TEMP_OFFSET;
             r3 - address.TEMP_OFFSET; r4 - address.TEMP_OFFSET ]
      else Ok []
  | None => Ok []
  end.

Definition status_of (status_val : Z) : string :=
  if status_val =? 1 then "Charge"
  else if status_val =? 2 then "Dischg"
  else "Idle".

(** Lines 145-186 of [main]: one battery's row, and its faults if any. *)
Definition show_pack (name : string) (cell_temps : list Z)
    (registers : option (list Z)) : M unit :=
  match registers with
  | Some regs =>
      if truthy registers && (len regs =? address.REGISTER_COUNT) then
        raw_voltage <~ lift (index regs address.OFFSET_VOLTAGE) ;;
        let voltage := div10 raw_voltage in
        raw_current <~ lift (index regs address.OFFSET_CURRENT) ;;
        let current := div10 (raw_current - address.CURRENT_OFFSET) in
        raw_soc <~ lift (index regs address.OFFSET_SOC) ;;
        let soc := div10 raw_soc in
        min_v <~ lift (index regs address.OFFSET_MIN_CELL_V) ;;
        max_v <~ lift (index regs address.OFFSET_MAX_CELL_V) ;;
        diff_v <~ lift (index regs address.OFFSET_DIFF_CELL_V) ;;
        status_val <~ lift (index regs address.OFFSET_CHG_DISCHG_STATUS) ;;
        let status_str := status_of status_val in
        cycles <~ lift (index regs address.OFFSET_CYCLES) ;;
        raw_rem_cap <~ lift (index regs address.OFFSET_REMAINING_CAP) ;;
        say (DataRow name voltage current soc status_str
                     min_v max_v diff_v cell_temps) ;;;
        f1 <~ lift (index regs address.OFFSET_FAULT_1) ;;
        f2 <~ lift (index regs address.OFFSET_FAULT_2) ;;
        f3 <~ lift (index regs address.OFFSET_FAULT_3) ;;
        f4 <~ lift (index regs address.OFFSET_FAULT_4) ;;
        let fault_list := address.get_fault_list f1 f2 f3 f4 in
        match fault_list with
        | [] => retM tt
        | _ :: _ => say (FaultsLine fault_list)
        end
      else say (TimeoutRow name)
  | None => say (TimeoutRow name)
  end.

(** The body of [for request_id, response_id, name in BATTERIES]. *)
Definition poll_battery (ticks : nat) (battery : Z * Z * string) : M unit :=
  let '(request_id, response_id, name) := battery in
  send_modbus_request request_id 0x03 address.BATT_TEMP_START_ADDRESS
                      address.BATT_TEMP_REGISTER_COUNT ;;;
  temp_registers <~ read_modbus_response ticks ;;
  cell_temps <~ lift (cell_temps_of temp_registers) ;;
  send_modbus_request request_id 0x03 address.START_ADDRESS
                      address.REGISTER_COUNT ;;;
  registers <~ read_modbus_response ticks ;;
  show_pack name cell_temps registers.

(** One pass of the [while True] body over the given batteries. *)
Definition cycle (ticks : nat) (batteries : list (Z * Z * string)) : M unit :=
  for_each batteries (poll_battery ticks).

(** How [main] ends: the operator's interrupt, here the end of the
    [cycles] budget, or the [except Exception] handler. *)
Inductive ending : Type :=
| Stopped
| Failed (e : exn).

(** [main]'s [while True] under its [try]: any exception of a cycle
    reaches the handler outside the loop, so no later cycle runs. *)
Fixpoint main (cycles ticks : nat) (w : World) : ending * World :=
  match cycles with
  | O => (Stopped, w)
  | S cycles' =>
      match cycle ticks BATTERIES w with
      | (Ok _, w') => main cycles' ticks w'
      | (Raise e, w') => (Failed e, w')
      end
  end.

End new_main.

(** ** [main.py] *)
Module main.

Definition BATTERIES : list (Z * Z * string) :=
  [ (0x81, 0x51, "Battery 1"%string);
    (0x82, 0x52, "Battery 2"%string);
    (0x83, 0x53, "Battery 3"%string) ].

(** The completeness test of this script looks at byte 2 whatever the
    function code is. *)
Definition frame_complete (response : list Z) : bool :=
  if 5 <=? len response then
    let byte_count := if 2 <? len response then nth 2 response 0 else 0 in
    let expected_len := 5 + byte_count in
    expected_len <=? len response
  else false.

Fixpoint receive (ticks : nat) (response : list Z) (w : World)
  : list Z * World :=
  match ticks with
  | O => (response, w)
  | S ticks' =>
      let (chunk, w') := ser_poll w in
      let response' := response ++ chunk in
      if frame_complete response' then (response', w')
      else receive ticks' response' w'
  end.

Definition parse_response (response : list Z) : result (option (list Z)) :=
  match response with
  | [] => Ok None
  | _ :: _ =>
      slave_id <- index response 0 ;;
      function_code <- index response 1 ;;
      if 0x80 <=? function_code then
        error_code <- index response 2 ;;
        Ok None
      else if function_code =? 0x03 then
        byte_count <- index response 2 ;;
        let data := slice response 3 (3 + byte_count) in
        registers <- extract_registers byte_count data ;;
        Ok (Some registers)
      else Ok None
  end.

(** [expected_slave_id] is accepted and never looked at. *)
Definition read_modbus_response (expected_slave_id : option Z) (ticks : nat)
  : M (option (list Z)) :=
  fun w =>
    let (response, w') := receive ticks [] w in
    (parse_response response, w').

(** The first [for] of a cycle: it fills [battery_data]. *)
Fixpoint poll_all (ticks : nat) (batteries : list (Z * Z * string))
    (battery_data : list (string * list Z)) : M (list (string * list Z)) :=
  match batteries with
  | [] => retM battery_data
  | (request_id, response_id, battery_name) :: rest =>
      send_modbus_request request_id 0x03 0x0000 0x0010 ;;;
      registers <~ read_modbus_response (Some response_id) ticks ;;
      match registers with
      | Some (r :: regs) =>
          poll_all ticks rest (dict_set battery_data battery_name (r :: regs))
      | _ => poll_all ticks rest battery_data
      end
  end.

(** The statistics of one overview line. *)
Definition overview_row (battery_name : string) (registers : list Z)
  : result Line :=
  let total_v := div1000 (py_sum registers) in
  min_cell <- py_min registers ;;
  max_cell <- py_max registers ;;
  let delta := max_cell - min_cell in
  avg_v <- float_div_int total_v (len registers) ;;
  Ok (OverviewRow battery_name total_v avg_v min_cell max_cell delta).

(** The second [for] of a cycle, over [battery_data.items()]. *)
Definition show_overview (battery_data : list (string * list Z)) : M unit :=
  for_each battery_data
    (fun item => row <~ lift (overview_row (fst item) (snd item)) ;; say row) ;;;
  match battery_data with
  | [] => say NoBatteries
  | _ :: _ => retM tt
  end.

Definition cycle (ticks : nat) (batteries : list (Z * Z * string)) : M unit :=
  battery_data <~ poll_all ticks batteries [] ;;
  show_overview battery_data.

Inductive ending : Type :=
| Stopped
| Failed (e : exn).

(** The script's [while True] under its [try]. *)
Fixpoint run (cycles ticks : nat) (w : World) : ending * World :=
  match cycles with
  | O => (Stopped, w)
  | S cycles' =>
      match cycle ticks BATTERIES w with
      | (Ok _, w') => run cycles' ticks w'
      | (Raise e, w') => (Failed e, w')
      end
  end.

End main.

(** ** The fault catalog, as a table

    The same decoding written as data: one entry per fault, giving the
    fault word (1 to 4), the bit of that 16-bit word (8 to 15 is the high
    byte) and the label, in the order of emission. *)
Module catalog.

Definition fault_catalog : list (nat * Z * string) :=
  [
    (1%nat, 8, "Cell V High L1"%string);
    (1%nat, 9, "Cell V High L2"%string);
    (1%nat, 10, "Cell V Low L1"%string);
    (1%nat, 11, "Cell V Low L2"%string);
    (1%nat, 12, "Pack V High L1"%string);
    (1%nat, 13, "Pack V High L2"%string);
    (1%nat, 14, "Pack V Low L1"%string);
    (1%nat, 15, "Pack V Low L2"%string);
    (1%nat, 0, "Chg Temp High L1"%string);
    (1%nat, 1, "Chg Temp High L2"%string);
    (1%nat, 2, "Chg Temp Low L1"%string);
    (1%nat, 3, "Chg Temp Low L2"%string);
    (1%nat, 4, "Dischg Temp High L1"%string);
    (1%nat, 5, "Dischg Temp High L2"%string);
    (1%nat, 6, "Dischg Temp Low L1"%string);
    (1%nat, 7, "Dischg Temp Low L2"%string);
    (2%nat, 8, "Chg Overcur L1"%string);
    (2%nat, 9, "Chg Overcur L2"%string);
    (2%nat, 10, "Dischg Overcur L1"%string);
    (2%nat, 11, "Dischg Overcur L2"%string);
    (2%nat, 12, "SOC High L1"%string);
    (2%nat, 13, "SOC High L2"%string);
    (2%nat, 14, "SOC Low L1"%string);
    (2%nat, 15, "SOC Low L2"%string);
    (2%nat, 0, "Diff V High L1"%string);
    (2%nat, 1, "Diff V High L2"%string);
    (2%nat, 2, "Diff Temp High L1"%string);
    (2%nat, 3, "Diff Temp High L2"%string);
    (2%nat, 4, "MOS Temp High L1"%string);
    (2%nat, 5, "MOS Temp High L2"%string);
    (2%nat, 6, "Amb Temp High L1"%string);
    (2%nat, 7, "Amb Temp High L2"%string);
    (3%nat, 8, "Chg MOS Temp Warn"%string);
    (3%nat, 9, "Dischg MOS Temp Warn"%string);
    (3%nat, 10, "Chg MOS Sensor Fail"%string);
    (3%nat, 11, "Dischg MOS Sensor Fail"%string);
    (3%nat, 12, "Chg MOS Adhesion"%string);
    (3%nat, 13, "Dischg MOS Adhesion"%string);
    (3%nat, 14, "Chg MOS Open Circ"%string);
    (3%nat, 15, "Dischg MOS Open Circ"%string);
    (3%nat, 0, "AFE Fail"%string);
    (3%nat, 1, "Volt Sensor Disconn"%string);
    (3%nat, 2, "Temp Sensor Fail"%string);
    (3%nat, 3, "EEPROM Fail"%string);
    (3%nat, 4, "RTC Fail"%string);
    (3%nat, 5, "Precharge Fail"%string);
    (3%nat, 6, "Veh Comm Fail"%string);
    (3%nat, 7, "Int Net Fail"%string);
    (4%nat, 8, "Curr Mod Fail"%string);
    (4%nat, 9, "Press Mod Fail"%string);
    (4%nat, 10, "Short Circ"%string);
    (4%nat, 11, "Low V Chg Prohibit"%string);
    (4%nat, 12, "GPS/Switch MOS"%string);
    (4%nat, 13, "Chg Cab Offline"%string)
  ].

Definition fault_word (f1 f2 f3 f4 : Z) (word : nat) : Z :=
  match word with
  | 1%nat => f1
  | 2%nat => f2
  | 3%nat => f3
  | _ => f4
  end.

Definition fault_active (f1 f2 f3 f4 : Z) (entry : nat * Z * string) : bool :=
  let '(word, bit, _) := entry in
  Z.testbit (fault_word f1 f2 f3 f4 word) bit.

Definition decode_by_catalog (f1 f2 f3 f4 : Z) : list string :=
  map snd (filter (fault_active f1 f2 f3 f4) fault_catalog).

Definition fault_labels : list string := map snd fault_catalog.

(** High byte bits 0 to 7, then low byte bits 0 to 7, of one word. *)
Definition word_positions (word : nat) : list (nat * Z) :=
  map (fun bit => (word, 8 + bit)) [0; 1; 2; 3; 4; 5; 6; 7]
  ++ map (fun bit => (word, bit)) [0; 1; 2; 3; 4; 5; 6; 7].

(** Words 1 to 3 in full, then bits 0 to 5 of the high byte of word 4. *)
Definition emission_order : list (nat * Z) :=
  word_positions 1 ++ word_positions 2 ++ word_positions 3
  ++ map (fun bit => (4%nat, 8 + bit)) [0; 1; 2; 3; 4; 5].

(** What one [if ...: faults.append(...)] contributes. *)
Definition emit (active : bool) (label : string) : list string :=
  if active then [label] else [].

(** A list of strings without repetition, decided. *)
Fixpoint distinct (xs : list string) : bool :=
  match xs with
  | [] => true
  | x :: rest => negb (existsb (String.eqb x) rest) && distinct rest
  end.

End catalog.

(** ** Vocabulary of the statements *)

(** The 16-bit big-endian words of a byte string, two bytes at a time; a
    last odd byte is left out. *)
Fixpoint be_words (bytes : list Z) : list Z :=
  match bytes with
  | hi :: lo :: rest => Z.lor (Z.shiftl hi 8) lo :: be_words rest
  | _ => []
  end.

(** The bytes of a list of 16-bit words, high byte first. *)
Definition be_bytes (words : list Z) : list Z :=
  flat_map (fun v => [Z.shiftr v 8; Z.land v 255]) words.

(** The register loop on the bytes still ahead of it. *)
Fixpoint unpack_pairs (passes : nat) (ahead registers : list Z)
  : result (list Z) :=
  match passes with
  | O => Ok registers
  | S passes' =>
      match ahead with
      | hi :: lo :: rest =>
          unpack_pairs passes' rest (registers ++ [Z.lor (Z.shiftl hi 8) lo])
      | _ => Raise StructError
      end
  end.

(** A port on which the given chunks arrive, one per iteration, and
    nothing has been written or printed yet. *)
Definition line_with (chunks : list (list Z)) : World := mkWorld chunks [] [].

(** The data row [show_pack] prints for a full pack-data block. *)
Definition pack_row (name : string) (cell_temps regs : list Z) : Line :=
  DataRow name
    (div10 (nth 0 regs 0))
    (div10 (nth 1 regs 0 - 30000))
    (div10 (nth 2 regs 0))
    (new_main.status_of (nth 16 regs 0))
    (nth 8 regs 0) (nth 6 regs 0) (nth 10 regs 0)
    cell_temps.

(** The lines that follow the data row: the faults, when there are any. *)
Definition fault_lines (regs : list Z) : list Line :=
  match address.get_fault_list (nth 46 regs 0) (nth 47 regs 0)
                               (nth 48 regs 0) (nth 49 regs 0) with
  | [] => []
  | fault :: faults => [FaultsLine (fault :: faults)]
  end.

(** [x] is a binary64 number within half a unit in the last place of the
    exact quotient [n / 10]: writing [x] as [m * 2^e] with its 53-bit
    mantissa [m], the distance [|10 m - n 2^(-e)|], which is
    [10 * 2^(-e) * |x - n/10|], is at most 5; at the low end of a binade,
    where the spacing halves below [x], the quotient must be [x] itself. *)
Definition nearest_to_tenth (x : float) (n : Z) : bool :=
  match Prim2SF x with
  | S754_zero _ => n =? 0
  | S754_finite sign m e =>
      let sm := if sign then Z.neg m else Z.pos m in
      let err := Z.abs (10 * sm - Z.shiftl n (- e)) in
      (e <? 0)
      && ((err =? 0)
          || ((4503599627370496 <? Z.pos m) && (Z.pos m <? 9007199254740992)
              && (err <=? 5)))
  | _ => false
  end.

(** [p] holds at [z], [z + 1], ..., [z + count - 1]. *)
Fixpoint all_from (p : Z -> bool) (count : nat) (z : Z) : bool :=
  match count with
  | O => true
  | S count' => p z && all_from p count' (z + 1)
  end.

(** A battery row: the one line per battery of a [new_main.py] cycle. *)
Definition is_row (l : Line) : bool :=
  match l with
  | DataRow _ _ _ _ _ _ _ _ _ | TimeoutRow _ => true
  | _ => false
  end.

(** The receive loop of either script, over its completeness test. *)
Fixpoint receive_with (complete : list Z -> bool) (ticks : nat)
    (response : list Z) (w : World) : list Z * World :=
  match ticks with
  | O => (response, w)
  | S ticks' =>
      let (chunk, w') := ser_poll w in
      let response' := response ++ chunk in
      if complete response' then (response', w')
      else receive_with complete ticks' response' w'
  end.

(** A frame at which a completeness test stops, and at no proper prefix
    of which it stops. *)
Definition settles (complete : list Z -> bool) (frame : list Z) : Prop :=
  complete frame = true
  /\ forall p q, frame = p ++ q -> complete p = true -> q = [].

(** A normal response on the wire: address, function 3, byte count, the
    data and two trailing bytes, whatever they are. *)
Definition normal_frame (slave_id : Z) (data : list Z) (c1 c2 : Z) : list Z :=
  slave_id :: 0x03 :: len data :: data ++ [c1; c2].


(** The step that undoes [crc_shift] on a 16-bit register: bit 15 of the
    result tells whether the polynomial was folded in. *)
Definition crc_unshift (crc : Z) : Z :=
  if Z.testbit crc 15
  then 2 * Z.lxor crc 0xA001 + 1
  else 2 * crc.

(** The number of battery rows among some printed lines. *)
Definition rows_of (lines : list Line) : nat := List.length (filter is_row lines).

(** The two requests [new_main.py] sends to one battery: the temperature
    block, then the pack-data block. *)
Definition requests_of (request_id : Z) : list (list Z) :=
  match request_frame request_id 0x03 address.BATT_TEMP_START_ADDRESS
                      address.BATT_TEMP_REGISTER_COUNT,
        request_frame request_id 0x03 address.START_ADDRESS
                      address.REGISTER_COUNT with
  | Ok temp_request, Ok pack_request => [temp_request; pack_request]
  | _, _ => []
  end.

Definition request_id_of (battery : Z * Z * string) : Z := fst (fst battery).

Definition name_of (battery : Z * Z * string) : string := snd battery.

(** The bits of a fault word that the decoder looks at: all 16 of words
    1 to 3, and bits 8 to 13 of word 4. *)
Definition decoded_mask (word : nat) : Z :=
  match word with
  | 1%nat | 2%nat | 3%nat => 0xFFFF
  | _ => 0x3F00
  end.

(** The table has an entry for this bit of this word. *)
Definition covered (word : nat) (bit : Z) : bool :=
  existsb (fun entry => Nat.eqb (fst (fst entry)) word && (snd (fst entry) =? bit))
          catalog.fault_catalog.

(** A [battery_data] dict none of whose register lists is empty. *)
Definition filled (battery_data : list (string * list Z)) : Prop :=
  Forall (fun item => snd item <> []) battery_data.

(** ** Bounds on the checksum register *)

Lemma log2_below (n a : Z) : 0 < n -> 0 <= a < 2 ^ n -> Z.log2 a < n.
Proof.
  intros Hn Ha. destruct (Z.eq_dec a 0) as [-> | Hz].
  - cbn. exact Hn.
  - apply Z.log2_lt_pow2; lia.
Qed.

Lemma lxor_below (n a b : Z) :
  0 <= n -> 0 <= a < 2 ^ n -> 0 <= b < 2 ^ n -> 0 <= Z.lxor a b < 2 ^ n.
Proof.
  intros Hn Ha Hb.
  assert (H0 : 0 <= Z.lxor a b) by (apply Z.lxor_nonneg; lia).
  split; [exact H0 |].
  destruct (Z.eq_dec n 0) as [-> | Hn0].
  - change (2 ^ 0) with 1 in *.
    assert (a = 0) by lia. assert (b = 0) by lia. subst. cbn. lia.
  - destruct (Z.eq_dec (Z.lxor a b) 0) as [E | E].
    + rewrite E. apply Z.pow_pos_nonneg; lia.
    + apply Z.log2_lt_pow2; [lia |].
      pose proof (Z.log2_lxor a b ltac:(lia) ltac:(lia)) as L.
      pose proof (log2_below n a ltac:(lia) Ha).
      pose proof (log2_below n b ltac:(lia) Hb).
      lia.
Qed.

Lemma crc_shift_u16 (crc : Z) : is_u16 crc -> is_u16 (crc_shift crc).
Proof.
  unfold is_u16, crc_shift. intros H.
  assert (Hs : 0 <= Z.shiftr crc 1 < 2 ^ 16).
  { rewrite Z.shiftr_div_pow2 by lia. change (2 ^ 1) with 2.
    split; [apply Z.div_pos; lia | apply Z.div_lt_upper_bound; lia]. }
  destruct (Z.land crc 1 =? 0).
  - change (2 ^ 16) with 65536 in Hs. lia.
  - pose proof (lxor_below 16 (Z.shiftr crc 1) 0xA001) as L.
    change (2 ^ 16) with 65536 in *. lia.
Qed.

Lemma crc_byte_u16 (crc byte : Z) :
  is_u16 crc -> is_byte byte -> is_u16 (crc_byte crc byte).
Proof.
  intros Hc Hb. unfold crc_byte.
  assert (H0 : is_u16 (Z.lxor crc byte)).
  { unfold is_u16, is_byte in *.
    pose proof (lxor_below 16 crc byte) as L.
    change (2 ^ 16) with 65536 in L. lia. }
  generalize dependent (Z.lxor crc byte). intros x Hx.
  do 8 (apply crc_shift_u16 in Hx). exact Hx.
Qed.

Lemma crc_fold_u16 (data : list Z) (crc : Z) :
  is_u16 crc -> Forall is_byte data -> is_u16 (fold_left crc_byte data crc).
Proof.
  revert crc. induction data as [| b data IH]; intros crc Hc Hd; cbn.
  - exact Hc.
  - inversion Hd; subst. apply IH; [apply crc_byte_u16 |]; assumption.
Qed.

Lemma crc_register_u16 (data : list Z) :
  Forall is_byte data -> is_u16 (crc_register data).
Proof.
  intros H. apply crc_fold_u16; [unfold is_u16; lia | exact H].
Qed.

(** ** Range checks of [struct.pack] *)

Lemma in_range_byte (v : Z) : Struct.in_range 0 255 v = true <-> is_byte v.
Proof. unfold Struct.in_range, is_byte. lia. Qed.

Lemma in_range_u16 (v : Z) : Struct.in_range 0 65535 v = true <-> is_u16 v.
Proof. unfold Struct.in_range, is_u16. lia. Qed.

Lemma in_range_true (lo hi v : Z) :
  lo <= v <= hi -> Struct.in_range lo hi v = true.
Proof. unfold Struct.in_range. lia. Qed.

Lemma in_range_false (lo hi v : Z) :
  ~ lo <= v <= hi -> Struct.in_range lo hi v = false.
Proof. unfold Struct.in_range. lia. Qed.

Lemma calculate_crc_ok (data : list Z) :
  Forall is_byte data ->
  calculate_crc data
  = Ok [Z.land (crc_register data) 255; Z.shiftr (crc_register data) 8].
Proof.
  intros H. unfold calculate_crc, Struct.pack_H_le.
  rewrite in_range_true; [reflexivity | apply crc_register_u16, H].
Qed.

Lemma shiftr8_byte (v : Z) : is_u16 v -> is_byte (Z.shiftr v 8).
Proof.
  unfold is_u16, is_byte. intros H.
  rewrite Z.shiftr_div_pow2 by lia. change (2 ^ 8) with 256.
  split; [apply Z.div_pos; lia |].
  assert (v / 256 < 256) by (apply Z.div_lt_upper_bound; lia). lia.
Qed.

Lemma land255_byte (v : Z) : is_byte (Z.land v 255).
Proof.
  unfold is_byte.
  assert (E : Z.land v 255 = v mod 256).
  { change 255 with (Z.ones 8). rewrite Z.land_ones by lia. reflexivity. }
  rewrite E. pose proof (Z.mod_pos_bound v 256 ltac:(lia)). lia.
Qed.

(** The frame of a request whose fields fit their wire widths. *)
Lemma request_frame_ok (slave_id function_code start_addr count : Z) :
  is_byte slave_id -> is_byte function_code ->
  is_u16 start_addr -> is_u16 count ->
  let body := [ slave_id; function_code;
                Z.shiftr start_addr 8; Z.land start_addr 255;
                Z.shiftr count 8; Z.land count 255 ] in
  request_frame slave_id function_code start_addr count
  = Ok (body ++ [ Z.land (crc_register body) 255;
                  Z.shiftr (crc_register body) 8 ]).
Proof.
  intros Hs Hf Ha Hc body.
  unfold request_frame, Struct.pack_BBHH, Struct.pack_B, Struct.pack_H_be.
  rewrite !in_range_true by assumption. cbn [bind app].
  fold body. rewrite calculate_crc_ok; [reflexivity |].
  unfold body.
  repeat (apply Forall_cons; [auto using shiftr8_byte, land255_byte |]).
  apply Forall_nil.
Qed.

Lemma request_frame_raise (slave_id function_code start_addr count : Z) :
  ~ (is_byte slave_id /\ is_byte function_code /\
     is_u16 start_addr /\ is_u16 count) ->
  request_frame slave_id function_code start_addr count = Raise StructError.
Proof.
  intros H.
  unfold request_frame, Struct.pack_BBHH, Struct.pack_B, Struct.pack_H_be.
  destruct (Struct.in_range 0 255 slave_id) eqn:E1; [| reflexivity].
  destruct (Struct.in_range 0 255 function_code) eqn:E2; [| reflexivity].
  destruct (Struct.in_range 0 65535 start_addr) eqn:E3; [| reflexivity].
  destruct (Struct.in_range 0 65535 count) eqn:E4; [| reflexivity].
  exfalso. apply H.
  rewrite <- !in_range_byte, <- !in_range_u16. auto.
Qed.

(** ** The checksum of the reference request *)

(** C2 (as the code has it): for the bytes 01 03 00 00 00 0A the checksum
    register ends as the 16-bit value 0xCDC5, and [calculate_crc] returns
    it low byte first, that is the two bytes C5 CD in that order. *)
Theorem crc_reference_vector :
  crc_register [0x01; 0x03; 0x00; 0x00; 0x00; 0x0A] = 0xCDC5
  /\ calculate_crc [0x01; 0x03; 0x00; 0x00; 0x00; 0x0A] = Ok [0xC5; 0xCD].
Proof. split; reflexivity. Qed.

(** The 16-bit value is not 0xC5CD: that number is the wire order read as
    one big-endian word. *)
Lemma crc_reference_not_C5CD :
  ~ (crc_register [0x01; 0x03; 0x00; 0x00; 0x00; 0x0A] = 0xC5CD
     /\ calculate_crc [0x01; 0x03; 0x00; 0x00; 0x00; 0x0A] = Ok [0xC5; 0xCD]).
Proof. intros [H _]. vm_compute in H. discriminate H. Qed.

(** ** The request builder and the register count *)

(** C6 (as the code has it): the only check is that every field fits its
    wire width.  With all four fields in range, whatever the count between
    0 and 65535, the 8-byte request is written to the port; with a field
    out of range [struct.error] is raised and nothing is written. *)
Theorem send_modbus_request_width_check
    (slave_id function_code start_addr count : Z) (w : World) :
  let body := [ slave_id; function_code;
                Z.shiftr start_addr 8; Z.land start_addr 255;
                Z.shiftr count 8; Z.land count 255 ] in
  (is_byte slave_id /\ is_byte function_code /\
   is_u16 start_addr /\ is_u16 count ->
   send_modbus_request slave_id function_code start_addr count w
   = (Ok tt, ser_write (body ++ [ Z.land (crc_register body) 255;
                                  Z.shiftr (crc_register body) 8 ]) w))
  /\ (~ (is_byte slave_id /\ is_byte function_code /\
         is_u16 start_addr /\ is_u16 count) ->
      send_modbus_request slave_id function_code start_addr count w
      = (Raise StructError, w)).
Proof.
  intros body. split.
  - intros (Hs & Hf & Ha & Hc).
    unfold send_modbus_request, bindM, lift.
    rewrite request_frame_ok by assumption. reflexivity.
  - intros H. unfold send_modbus_request, bindM, lift.
    rewrite request_frame_raise by assumption. reflexivity.
Qed.

Lemma send_modbus_request_width_check_witness :
  send_modbus_request 0x81 0x03 0x38 200 (mkWorld [] [] [])
  = (Ok tt, mkWorld [] [[0x81; 0x03; 0x00; 0x38; 0x00; 0xC8; 0xDA; 0x51]] [])
  /\ send_modbus_request 0x81 0x03 0x38 65536 (mkWorld [] [] [])
     = (Raise StructError, mkWorld [] [] []).
Proof.
  split.
  - apply (proj1 (send_modbus_request_width_check 0x81 0x03 0x38 200
                    (mkWorld [] [] []))).
    unfold is_byte, is_u16. lia.
  - apply (proj2 (send_modbus_request_width_check 0x81 0x03 0x38 65536
                    (mkWorld [] [] []))).
    unfold is_byte, is_u16. intros (_ & _ & _ & H). lia.
Defined.

(** A count of 0, and a count of 126, are framed and sent like any other. *)
Lemma send_modbus_request_no_count_limit :
  ~ (forall (w : World) (slave_id function_code start_addr count : Z),
        ~ (0 < count <= 125) ->
        exists e w',
          send_modbus_request slave_id function_code start_addr count w
          = (Raise e, w')).
Proof.
  intros H.
  destruct (H (mkWorld [] [] []) 0x81 0x03 0x38 0 ltac:(lia)) as (e & w' & E).
  vm_compute in E. discriminate E.
Qed.

(** ** The fault decoder against its table *)

Section FaultBits.

Import address catalog.

Lemma append_if_app (cond : Z) (label : string) (faults : list string) :
  append_if cond label faults = faults ++ emit (negb (cond =? 0)) label.
Proof.
  unfold append_if, emit. destruct (cond =? 0); cbn.
  - symmetry. apply app_nil_r.
  - reflexivity.
Qed.

Lemma land_pow2 (x k : Z) :
  0 <= k -> Z.land x (2 ^ k) = if Z.testbit x k then 2 ^ k else 0.
Proof.
  intros Hk. apply Z.bits_inj'. intros n Hn.
  rewrite Z.land_spec, Z.pow2_bits_eqb by exact Hk.
  destruct (Z.eqb_spec k n) as [-> | Hne].
  - destruct (Z.testbit x n).
    + rewrite Z.pow2_bits_true by exact Hn. reflexivity.
    + rewrite Z.bits_0. reflexivity.
  - rewrite andb_false_r. destruct (Z.testbit x k).
    + rewrite Z.pow2_bits_false by lia. reflexivity.
    + rewrite Z.bits_0. reflexivity.
Qed.

Lemma mask_test (x mask k : Z) :
  0 <= k -> mask = 2 ^ k -> negb (Z.land x mask =? 0) = Z.testbit x k.
Proof.
  intros Hk ->. rewrite land_pow2 by exact Hk.
  destruct (Z.testbit x k).
  - assert (0 < 2 ^ k) by (apply Z.pow_pos_nonneg; lia).
    destruct (Z.eqb_spec (2 ^ k) 0); [lia | reflexivity].
  - reflexivity.
Qed.

Lemma byte_bit (x k : Z) :
  0 <= k < 8 -> Z.testbit (Z.land x 0xFF) k = Z.testbit x k.
Proof.
  intros Hk. rewrite Z.land_spec. change 0xFF with (Z.ones 8).
  rewrite Z.ones_spec_low by lia. apply andb_true_r.
Qed.

(** The test of bit [k] of the low byte. *)
Lemma lsb_test (f mask k : Z) :
  0 <= k < 8 -> mask = 2 ^ k ->
  negb (Z.land (Z.land f 0xFF) mask =? 0) = Z.testbit f k.
Proof.
  intros Hk Hm. rewrite (mask_test _ mask k) by (lia || exact Hm).
  apply byte_bit, Hk.
Qed.

(** The test of bit [k] of the high byte. *)
Lemma msb_test (f mask k : Z) :
  0 <= k < 8 -> mask = 2 ^ k ->
  negb (Z.land (Z.land (Z.shiftr f 8) 0xFF) mask =? 0) = Z.testbit f (8 + k).
Proof.
  intros Hk Hm. rewrite (mask_test _ mask k) by (lia || exact Hm).
  rewrite byte_bit by exact Hk. rewrite Z.shiftr_spec by lia.
  f_equal. lia.
Qed.

Lemma decode_flat (P : nat * Z * string -> bool)
    (es : list (nat * Z * string)) :
  map snd (filter P es) = flat_map (fun e => emit (P e) (snd e)) es.
Proof.
  induction es as [| e es IH]; [reflexivity |].
  cbn [filter flat_map]. unfold emit at 1.
  destruct (P e); cbn [map app]; rewrite IH; reflexivity.
Qed.

Ltac bit_tests :=
  rewrite ?(fun f => msb_test f 0x01 0), ?(fun f => msb_test f 0x02 1),
    ?(fun f => msb_test f 0x04 2), ?(fun f => msb_test f 0x08 3),
    ?(fun f => msb_test f 0x10 4), ?(fun f => msb_test f 0x20 5),
    ?(fun f => msb_test f 0x40 6), ?(fun f => msb_test f 0x80 7),
    ?(fun f => lsb_test f 0x01 0), ?(fun f => lsb_test f 0x02 1),
    ?(fun f => lsb_test f 0x04 2), ?(fun f => lsb_test f 0x08 3),
    ?(fun f => lsb_test f 0x10 4), ?(fun f => lsb_test f 0x20 5),
    ?(fun f => lsb_test f 0x40 6), ?(fun f => lsb_test f 0x80 7)
    by (lia || reflexivity).

(** The chain of [if]s computes what the table says. *)
Lemma get_fault_list_table (f1 f2 f3 f4 : Z) :
  get_fault_list f1 f2 f3 f4 = decode_by_catalog f1 f2 f3 f4.
Proof.
  unfold get_fault_list, decode_by_catalog, fault_catalog.
  cbv zeta. rewrite !append_if_app. rewrite decode_flat.
  cbn [flat_map snd fst fault_active fault_word].
  bit_tests.
  rewrite <- !app_assoc. cbn [app]. rewrite app_nil_r. reflexivity.
Qed.

Lemma distinct_NoDup (xs : list string) : distinct xs = true -> NoDup xs.
Proof.
  induction xs as [| x xs IH]; cbn; intros H.
  - constructor.
  - apply andb_true_iff in H as [Hx Hxs]. constructor.
    + intros Hin. apply negb_true_iff in Hx.
      assert (E : existsb (String.eqb x) xs = true).
      { apply existsb_exists. exists x. split; [exact Hin |].
        apply String.eqb_refl. }
      congruence.
    + apply IH, Hxs.
Qed.

Lemma decoded_in_labels (f1 f2 f3 f4 : Z) (label : string) :
  In label (get_fault_list f1 f2 f3 f4) -> In label fault_labels.
Proof.
  rewrite get_fault_list_table. unfold decode_by_catalog, fault_labels.
  rewrite !in_map_iff. intros (e & He & Hin).
  exists e. split; [exact He |]. apply filter_In in Hin. apply Hin.
Qed.

(** Bits 0 to 5 of the high byte of a word are all that reach the
    decoder from the fourth fault word. *)
Lemma high_bits_agree (f4 f4' k : Z) :
  Z.land (Z.shiftr f4 8) 0x3F = Z.land (Z.shiftr f4' 8) 0x3F ->
  0 <= k < 6 ->
  Z.testbit f4 (8 + k) = Z.testbit f4' (8 + k).
Proof.
  intros H Hk.
  assert (E : forall f, Z.testbit (Z.land (Z.shiftr f 8) 0x3F) k
                        = Z.testbit f (8 + k)).
  { intros f. rewrite Z.land_spec. change 0x3F with (Z.ones 6).
    rewrite Z.ones_spec_low by lia. rewrite andb_true_r.
    rewrite Z.shiftr_spec by lia. f_equal. lia. }
  rewrite <- (E f4), <- (E f4'), H. reflexivity.
Qed.

End FaultBits.

(** C7: the fault decoder is a function of the four fault words alone and
    emits its labels in one fixed order: the labels of the table whose bit
    is set, in table order, where the table runs through word 1 high byte
    bits 0 to 7, word 1 low byte bits 0 to 7, then words 2 and 3 likewise,
    then the decoded bits of word 4.  Four zero words give the empty list,
    and word 1 = 0x0100 alone gives exactly the label of cell voltage
    high, level 1. *)
Theorem get_fault_list_fixed_order (f1 f2 f3 f4 : Z) :
  address.get_fault_list f1 f2 f3 f4 = catalog.decode_by_catalog f1 f2 f3 f4
  /\ map fst catalog.fault_catalog = catalog.emission_order
  /\ address.get_fault_list 0 0 0 0 = []
  /\ address.get_fault_list 0x0100 0 0 0 = ["Cell V High L1"%string].
Proof.
  split; [apply get_fault_list_table |].
  split; [reflexivity |]. split; reflexivity.
Qed.

(** C10: the decoder never looks at the low byte of fault word 4 nor at
    bits 6 and 7 of its high byte: two values of word 4 that agree on
    high-byte bits 0 to 5 give the same list, whatever words 1 to 3 are.
    The labels that can be emitted are therefore exactly the 54 pairwise
    different labels of the table (16 + 16 + 16 + 6). *)
Theorem get_fault_list_word4_mask (f1 f2 f3 f4 f4' : Z) :
  (Z.land (Z.shiftr f4 8) 0x3F = Z.land (Z.shiftr f4' 8) 0x3F ->
   address.get_fault_list f1 f2 f3 f4 = address.get_fault_list f1 f2 f3 f4')
  /\ List.length catalog.fault_labels = 54%nat
  /\ NoDup catalog.fault_labels
  /\ (forall label : string,
         (exists g1 g2 g3 g4, In label (address.get_fault_list g1 g2 g3 g4))
         <-> In label catalog.fault_labels).
Proof.
  split; [| split; [reflexivity | split]].
  - intros H.
    rewrite (get_fault_list_table f1 f2 f3 f4),
      (get_fault_list_table f1 f2 f3 f4').
    pose proof (high_bits_agree f4 f4' 0 H ltac:(lia)) as B0.
    pose proof (high_bits_agree f4 f4' 1 H ltac:(lia)) as B1.
    pose proof (high_bits_agree f4 f4' 2 H ltac:(lia)) as B2.
    pose proof (high_bits_agree f4 f4' 3 H ltac:(lia)) as B3.
    pose proof (high_bits_agree f4 f4' 4 H ltac:(lia)) as B4.
    pose proof (high_bits_agree f4 f4' 5 H ltac:(lia)) as B5.
    change (8 + 0) with 8 in B0. change (8 + 1) with 9 in B1.
    change (8 + 2) with 10 in B2. change (8 + 3) with 11 in B3.
    change (8 + 4) with 12 in B4. change (8 + 5) with 13 in B5.
    unfold catalog.decode_by_catalog, catalog.fault_catalog.
    rewrite !decode_flat.
    cbn [flat_map snd fst catalog.fault_active catalog.fault_word].
    rewrite B0, B1, B2, B3, B4, B5. reflexivity.
  - apply distinct_NoDup. vm_compute. reflexivity.
  - intros label. split.
    + intros (g1 & g2 & g3 & g4 & Hin).
      eapply decoded_in_labels, Hin.
    + intros Hin. exists 0xFFFF, 0xFFFF, 0xFFFF, 0xFFFF.
      replace (address.get_fault_list 0xFFFF 0xFFFF 0xFFFF 0xFFFF)
        with catalog.fault_labels by (vm_compute; reflexivity).
      exact Hin.
Qed.

Lemma get_fault_list_word4_mask_witness :
  address.get_fault_list 0 0 0 0x04FF = address.get_fault_list 0 0 0 0xC400.
Proof.
  apply (proj1 (get_fault_list_word4_mask 0 0 0 0x04FF 0xC400)).
  reflexivity.
Defined.

(** ** The register loop *)

Lemma len_nonneg {A : Type} (xs : list A) : 0 <= len xs.
Proof. unfold len. lia. Qed.

Lemma len_app {A : Type} (xs ys : list A) : len (xs ++ ys) = len xs + len ys.
Proof. unfold len. rewrite length_app. lia. Qed.

Lemma len_cons {A : Type} (x : A) (xs : list A) : len (x :: xs) = 1 + len xs.
Proof. unfold len. cbn [List.length]. lia. Qed.

Lemma index_nth {A : Type} (xs : list A) (i : nat) (d : A) :
  (i < List.length xs)%nat -> index xs i = Ok (nth i xs d).
Proof.
  intros H. unfold index.
  rewrite (nth_error_nth' xs d H). reflexivity.
Qed.

Lemma index_out {A : Type} (xs : list A) (i : nat) :
  (List.length xs <= i)%nat -> index xs i = Raise IndexError.
Proof.
  intros H. unfold index.
  apply nth_error_None in H. rewrite H. reflexivity.
Qed.

(** The loop reads the buffer two bytes at a time from offset [2 * k]. *)
Lemma unpack_from_pairs (passes k : nat) (data registers : list Z) :
  unpack_from passes (2 * Z.of_nat k) data registers
  = unpack_pairs passes (skipn (2 * k) data) registers.
Proof.
  revert k registers. induction passes as [| passes IH]; intros k registers.
  - reflexivity.
  - cbn [unpack_from unpack_pairs]. unfold slice.
    replace (Z.to_nat (2 * Z.of_nat k + 2 - 2 * Z.of_nat k)) with 2%nat by lia.
    replace (Z.to_nat (2 * Z.of_nat k)) with (2 * k)%nat by lia.
    replace (2 * Z.of_nat k + 2) with (2 * Z.of_nat (S k)) by lia.
    assert (E : skipn (2 * S k) data = skipn 2 (skipn (2 * k) data)).
    { rewrite skipn_skipn. f_equal. lia. }
    destruct (skipn (2 * k) data) as [| hi [| lo rest]];
      cbn [firstn Struct.unpack_H_be bind]; try reflexivity.
    rewrite IH, E. reflexivity.
Qed.

Lemma extract_registers_pairs (byte_count : Z) (data : list Z) :
  extract_registers byte_count data
  = unpack_pairs (Z.to_nat ((byte_count + 1) / 2)) data [].
Proof.
  unfold extract_registers.
  exact (unpack_from_pairs _ 0 data []).
Qed.

(** With enough bytes ahead every pass succeeds. *)
Lemma unpack_pairs_ok (passes : nat) (ahead registers : list Z) :
  (2 * passes <= List.length ahead)%nat ->
  unpack_pairs passes ahead registers
  = Ok (registers ++ be_words (firstn (2 * passes) ahead)).
Proof.
  revert ahead registers.
  induction passes as [| passes IH]; intros ahead registers H.
  - cbn. rewrite app_nil_r. reflexivity.
  - destruct ahead as [| hi [| lo rest]]; cbn [List.length] in H; try lia.
    cbn [unpack_pairs]. rewrite IH by lia.
    replace (2 * S passes)%nat with (S (S (2 * passes))) by lia.
    cbn [firstn be_words]. rewrite <- app_assoc. reflexivity.
Qed.

(** With too few bytes ahead some pass raises. *)
Lemma unpack_pairs_short (passes : nat) (ahead registers : list Z) :
  (List.length ahead < 2 * passes)%nat ->
  unpack_pairs passes ahead registers = Raise StructError.
Proof.
  revert ahead registers.
  induction passes as [| passes IH]; intros ahead registers H.
  - lia.
  - destruct ahead as [| hi [| lo rest]]; cbn [unpack_pairs]; try reflexivity.
    apply IH. cbn [List.length] in H. lia.
Qed.

Lemma slice_length (xs : list Z) (byte_count : Z) :
  0 <= byte_count -> 3 + byte_count <= len xs ->
  List.length (slice xs 3 (3 + byte_count)) = Z.to_nat byte_count.
Proof.
  intros H0 H. unfold slice, len in *.
  rewrite length_firstn, length_skipn. lia.
Qed.

Lemma slice_length_le (xs : list Z) (byte_count : Z) :
  (List.length (slice xs 3 (3 + byte_count)) <= Z.to_nat byte_count)%nat.
Proof.
  unfold slice. rewrite length_firstn.
  replace (3 + byte_count - 3) with byte_count by lia. lia.
Qed.

Lemma odd_passes (byte_count : Z) :
  0 <= byte_count -> Z.odd byte_count = true ->
  (Z.to_nat byte_count < 2 * Z.to_nat ((byte_count + 1) / 2))%nat.
Proof.
  intros H0 Hodd. apply Z.odd_spec in Hodd as [k ->].
  replace (2 * k + 1 + 1) with ((k + 1) * 2) by lia.
  rewrite Z.div_mul by lia. lia.
Qed.

Lemma even_passes (byte_count : Z) :
  0 <= byte_count -> Z.even byte_count = true ->
  (2 * Z.to_nat ((byte_count + 1) / 2))%nat = Z.to_nat byte_count.
Proof.
  intros H0 Heven. apply Z.even_spec in Heven as [k ->].
  replace (2 * k + 1) with (1 + k * 2) by lia.
  rewrite Z.div_add by lia. change (1 / 2) with 0. lia.
Qed.

(** An odd byte count always ends the loop in [struct.error], however
    many data bytes have arrived. *)
Lemma extract_registers_odd (byte_count : Z) (xs : list Z) :
  0 <= byte_count -> Z.odd byte_count = true ->
  extract_registers byte_count (slice xs 3 (3 + byte_count))
  = Raise StructError.
Proof.
  intros H0 Hodd. rewrite extract_registers_pairs.
  apply unpack_pairs_short.
  pose proof (slice_length_le xs byte_count).
  pose proof (odd_passes byte_count H0 Hodd). lia.
Qed.

(** An even byte count whose data bytes have all arrived gives the
    big-endian words of the data. *)
Lemma extract_registers_even (byte_count : Z) (xs : list Z) :
  0 <= byte_count -> Z.even byte_count = true ->
  3 + byte_count <= len xs ->
  extract_registers byte_count (slice xs 3 (3 + byte_count))
  = Ok (be_words (slice xs 3 (3 + byte_count))).
Proof.
  intros H0 Heven Hlen. rewrite extract_registers_pairs.
  pose proof (slice_length xs byte_count H0 Hlen) as L.
  pose proof (even_passes byte_count H0 Heven) as E.
  rewrite unpack_pairs_ok by lia.
  rewrite E, <- L, firstn_all. reflexivity.
Qed.

(** Data bytes still missing: the loop raises. *)
Lemma extract_registers_truncated (byte_count : Z) (xs : list Z) :
  0 < byte_count -> len xs < 3 + byte_count ->
  extract_registers byte_count (slice xs 3 (3 + byte_count))
  = Raise StructError.
Proof.
  intros H0 Hlen. rewrite extract_registers_pairs.
  apply unpack_pairs_short.
  assert (L : (List.length (slice xs 3 (3 + byte_count))
               < Z.to_nat byte_count)%nat).
  { unfold slice, len in *. rewrite length_firstn, length_skipn. lia. }
  assert (byte_count <= 2 * ((byte_count + 1) / 2)).
  { pose proof (Z.div_mod (byte_count + 1) 2 ltac:(lia)).
    pose proof (Z.mod_pos_bound (byte_count + 1) 2 ltac:(lia)). lia. }
  lia.
Qed.

(** ** Reassembly of a fragmented frame *)

Lemma new_main_receive_with (ticks : nat) (response : list Z) (w : World) :
  new_main.receive ticks response w
  = receive_with new_main.frame_complete ticks response w.
Proof.
  revert response w. induction ticks as [| ticks IH]; intros response w.
  - reflexivity.
  - cbn [new_main.receive receive_with].
    destruct (ser_poll w) as [chunk w'].
    destruct (new_main.frame_complete (response ++ chunk));
      [reflexivity | apply IH].
Qed.

Lemma main_receive_with (ticks : nat) (response : list Z) (w : World) :
  main.receive ticks response w
  = receive_with main.frame_complete ticks response w.
Proof.
  revert response w. induction ticks as [| ticks IH]; intros response w.
  - reflexivity.
  - cbn [main.receive receive_with].
    destruct (ser_poll w) as [chunk w'].
    destruct (main.frame_complete (response ++ chunk));
      [reflexivity | apply IH].
Qed.

Section Reassembly.

Variable complete : list Z -> bool.
Variable frame : list Z.
Hypothesis frame_settles : settles complete frame.

(** However the frame is cut into chunks, empty ones included, the loop
    ends with the frame itself once the last chunk is in, provided the
    clock allows one iteration per chunk; what the port delivers after
    the frame stays in the port. *)
Lemma receive_with_reassembles (chunks later : list (list Z))
    (ticks : nat) (response : list Z) (sent : list (list Z))
    (printed : list Line) :
  response ++ List.concat chunks = frame ->
  List.concat chunks <> [] ->
  (List.length chunks <= ticks)%nat ->
  exists left_over,
    receive_with complete ticks response (mkWorld (chunks ++ later) sent printed)
    = (frame, mkWorld (left_over ++ later) sent printed)
    /\ List.concat left_over = [].
Proof.
  revert ticks response.
  induction chunks as [| chunk chunks IH]; intros ticks response E Hne Ht.
  - contradiction.
  - destruct ticks as [| ticks]; [cbn in Ht; lia |].
    cbn [receive_with app]. unfold ser_poll. cbn [rx tx out].
    cbn [List.concat] in E.
    destruct (complete (response ++ chunk)) eqn:C.
    + destruct frame_settles as [_ Hprefix].
      assert (Hq : List.concat chunks = []).
      { apply (Hprefix (response ++ chunk)); [| exact C].
        rewrite <- E, app_assoc. reflexivity. }
      exists chunks. split; [| exact Hq].
      f_equal. rewrite <- E, Hq, app_assoc, app_nil_r. reflexivity.
    + assert (Hne' : List.concat chunks <> []).
      { intros Hq. rewrite Hq, app_nil_r in E.
        destruct frame_settles as [Hc _]. congruence. }
      apply IH.
      * rewrite <- app_assoc. exact E.
      * exact Hne'.
      * cbn in Ht. lia.
Qed.

End Reassembly.

Lemma nth_prefix (p q : list Z) (i : nat) :
  (i < List.length p)%nat -> nth i (p ++ q) 0 = nth i p 0.
Proof. intros H. apply app_nth1, H. Qed.

Lemma empty_of_len {A : Type} (q : list A) : len q <= 0 -> q = [].
Proof. destruct q; [reflexivity |]. rewrite len_cons. pose proof (len_nonneg q). lia. Qed.

Lemma normal_frame_len (slave_id : Z) (data : list Z) (c1 c2 : Z) :
  len (normal_frame slave_id data c1 c2) = 5 + len data.
Proof.
  unfold normal_frame. rewrite !len_cons, len_app, !len_cons.
  change (len (@nil Z)) with 0. lia.
Qed.

Lemma normal_frame_settles_new_main (slave_id : Z) (data : list Z) (c1 c2 : Z) :
  settles new_main.frame_complete (normal_frame slave_id data c1 c2).
Proof.
  pose proof (normal_frame_len slave_id data c1 c2) as L.
  pose proof (len_nonneg data) as Hd.
  split.
  - unfold new_main.frame_complete. rewrite L.
    destruct (Z.leb_spec 5 (5 + len data)); [| lia].
    unfold normal_frame. cbn [nth]. rewrite Z.eqb_refl. apply Z.leb_le. lia.
  - intros p q E C. unfold new_main.frame_complete in C.
    destruct (Z.leb_spec 5 (len p)) as [H5 |]; [| discriminate].
    assert (L1 : nth 1 p 0 = 0x03).
    { rewrite <- (nth_prefix p q) by (unfold len in H5; lia).
      rewrite <- E. reflexivity. }
    assert (L2 : nth 2 p 0 = len data).
    { rewrite <- (nth_prefix p q) by (unfold len in H5; lia).
      rewrite <- E. reflexivity. }
    rewrite L1, L2, Z.eqb_refl in C. apply Z.leb_le in C.
    apply empty_of_len. rewrite E, len_app in L. lia.
Qed.


Lemma normal_frame_settles_main (slave_id : Z) (data : list Z) (c1 c2 : Z) :
  settles main.frame_complete (normal_frame slave_id data c1 c2).
Proof.
  pose proof (normal_frame_len slave_id data c1 c2) as L.
  pose proof (len_nonneg data) as Hd.
  split.
  - unfold main.frame_complete. rewrite L.
    destruct (Z.leb_spec 5 (5 + len data)); [| lia].
    destruct (Z.ltb_spec 2 (5 + len data)); [| lia].
    cbn [normal_frame nth]. apply Z.leb_le. lia.
  - intros p q E C. unfold main.frame_complete in C.
    destruct (Z.leb_spec 5 (len p)) as [H5 |]; [| discriminate].
    destruct (Z.ltb_spec 2 (len p)); [| lia].
    assert (L2 : nth 2 p 0 = len data).
    { rewrite <- (nth_prefix p q) by (unfold len in H5; lia).
      rewrite <- E. reflexivity. }
    rewrite L2 in C. apply Z.leb_le in C.
    apply empty_of_len. rewrite E, len_app in L. lia.
Qed.

(** ** What the reader makes of the bytes it has gathered *)

Lemma new_main_read_fst (ticks : nat) (w : World) :
  fst (new_main.read_modbus_response ticks w)
  = new_main.parse_response (fst (new_main.receive ticks [] w)).
Proof.
  unfold new_main.read_modbus_response.
  destruct (new_main.receive ticks [] w). reflexivity.
Qed.

Lemma main_read_fst (expected : option Z) (ticks : nat) (w : World) :
  fst (main.read_modbus_response expected ticks w)
  = main.parse_response (fst (main.receive ticks [] w)).
Proof.
  unfold main.read_modbus_response.
  destruct (main.receive ticks [] w). reflexivity.
Qed.

Lemma new_main_parse_function_3 (slave_id byte_count : Z) (rest : list Z) :
  new_main.parse_response (slave_id :: 0x03 :: byte_count :: rest)
  = (registers <-
       extract_registers byte_count
         (slice (slave_id :: 0x03 :: byte_count :: rest) 3 (3 + byte_count)) ;;
     Ok (Some registers)).
Proof. reflexivity. Qed.

Lemma main_parse_function_3 (slave_id byte_count : Z) (rest : list Z) :
  main.parse_response (slave_id :: 0x03 :: byte_count :: rest)
  = (registers <-
       extract_registers byte_count
         (slice (slave_id :: 0x03 :: byte_count :: rest) 3 (3 + byte_count)) ;;
     Ok (Some registers)).
Proof. reflexivity. Qed.

Lemma normal_frame_data (slave_id : Z) (data : list Z) (c1 c2 : Z) :
  slice (normal_frame slave_id data c1 c2) 3 (3 + len data) = data.
Proof.
  unfold slice, normal_frame, len.
  replace (Z.to_nat (3 + Z.of_nat (List.length data) - 3))
    with (List.length data + 0)%nat by lia.
  change (Z.to_nat 3) with 3%nat. cbn [skipn].
  rewrite firstn_app_2. cbn [firstn]. apply app_nil_r.
Qed.

Lemma parse_normal_frame (slave_id : Z) (data : list Z) (c1 c2 : Z) :
  Z.even (len data) = true ->
  new_main.parse_response (normal_frame slave_id data c1 c2)
  = Ok (Some (be_words data))
  /\ main.parse_response (normal_frame slave_id data c1 c2)
     = Ok (Some (be_words data)).
Proof.
  intros Heven.
  pose proof (normal_frame_len slave_id data c1 c2) as L.
  pose proof (len_nonneg data) as Hd.
  pose proof (extract_registers_even (len data)
                (normal_frame slave_id data c1 c2) Hd Heven ltac:(lia)) as E.
  split.
  - transitivity
      (registers <-
         extract_registers (len data)
           (slice (normal_frame slave_id data c1 c2) 3 (3 + len data)) ;;
       Ok (Some registers)); [reflexivity |].
    rewrite E, normal_frame_data. reflexivity.
  - transitivity
      (registers <-
         extract_registers (len data)
           (slice (normal_frame slave_id data c1 c2) 3 (3 + len data)) ;;
       Ok (Some registers)); [reflexivity |].
    rewrite E, normal_frame_data. reflexivity.
Qed.

(** ** The trailing checksum of a response *)

(** C1 (as the code has it): the reader never computes a checksum on what
    it receives.  For every normal response with an even byte count,
    however it is fragmented and whatever its two trailing bytes are, both
    scripts return the big-endian words of the data. *)
Theorem read_modbus_response_ignores_checksum
    (slave_id : Z) (data : list Z) (c1 c2 : Z)
    (chunks later sent : list (list Z)) (printed : list Line)
    (expected : option Z) (ticks : nat) :
  Z.even (len data) = true ->
  List.concat chunks = normal_frame slave_id data c1 c2 ->
  (List.length chunks <= ticks)%nat ->
  fst (new_main.read_modbus_response ticks
         (mkWorld (chunks ++ later) sent printed))
  = Ok (Some (be_words data))
  /\ fst (main.read_modbus_response expected ticks
            (mkWorld (chunks ++ later) sent printed))
     = Ok (Some (be_words data)).
Proof.
  intros Heven Hcat Ht.
  assert (Hne : List.concat chunks <> [])
    by (rewrite Hcat; unfold normal_frame; discriminate).
  destruct (parse_normal_frame slave_id data c1 c2 Heven) as [P1 P2].
  split.
  - rewrite new_main_read_fst, new_main_receive_with.
    destruct (receive_with_reassembles new_main.frame_complete _
                (normal_frame_settles_new_main slave_id data c1 c2)
                chunks later ticks [] sent printed Hcat Hne Ht)
      as (left_over & -> & _).
    exact P1.
  - rewrite main_read_fst, main_receive_with.
    destruct (receive_with_reassembles main.frame_complete _
                (normal_frame_settles_main slave_id data c1 c2)
                chunks later ticks [] sent printed Hcat Hne Ht)
      as (left_over & -> & _).
    exact P2.
Qed.

Lemma read_modbus_response_ignores_checksum_witness :
  fst (new_main.read_modbus_response 3
         (mkWorld ([[0x51; 0x03]; []; [0x02; 0x12; 0x34; 0x00; 0x00]] ++ [])
                  [] []))
  = Ok (Some (be_words [0x12; 0x34]))
  /\ fst (main.read_modbus_response (Some 0x51) 3
            (mkWorld ([[0x51; 0x03]; []; [0x02; 0x12; 0x34; 0x00; 0x00]] ++ [])
                     [] []))
     = Ok (Some (be_words [0x12; 0x34])).
Proof.
  apply (read_modbus_response_ignores_checksum 0x51 [0x12; 0x34] 0x00 0x00);
    [reflexivity | reflexivity | cbn; lia].
Defined.

(** A frame whose two trailing bytes are not its checksum yields registers
    all the same. *)
Lemma read_modbus_response_accepts_bad_checksum :
  ~ (forall (frame registers : list Z) (ticks : nat),
        fst (new_main.read_modbus_response ticks (line_with [frame]))
        = Ok (Some registers) ->
        calculate_crc (firstn (List.length frame - 2) frame)
        = Ok (skipn (List.length frame - 2) frame)).
Proof.
  intros H.
  specialize (H [0x51; 0x03; 0x02; 0x12; 0x34; 0x00; 0x00] [0x1234] 1%nat
                eq_refl).
  vm_compute in H. discriminate H.
Qed.

(** ** An odd byte count *)

(** C9: when the gathered response has function code 3 and an odd
    byte-count field, with at least 5 + byte count bytes gathered, the
    reader of either script raises [struct.error] (the last pass of the
    register loop unpacks a slice of one byte); and whenever the reader
    returns a register list, the byte-count field was even. *)
Theorem read_modbus_response_odd_byte_count
    (slave_id byte_count : Z) (rest : list Z) (expected : option Z)
    (ticks : nat) (w : World) :
  0 <= byte_count ->
  (fst (new_main.receive ticks [] w) = slave_id :: 0x03 :: byte_count :: rest ->
   (Z.odd byte_count = true ->
    5 + byte_count <= len (slave_id :: 0x03 :: byte_count :: rest) ->
    fst (new_main.read_modbus_response ticks w) = Raise StructError)
   /\ (forall registers,
          fst (new_main.read_modbus_response ticks w) = Ok (Some registers) ->
          Z.even byte_count = true))
  /\ (fst (main.receive ticks [] w) = slave_id :: 0x03 :: byte_count :: rest ->
      (Z.odd byte_count = true ->
       5 + byte_count <= len (slave_id :: 0x03 :: byte_count :: rest) ->
       fst (main.read_modbus_response expected ticks w) = Raise StructError)
      /\ (forall registers,
             fst (main.read_modbus_response expected ticks w)
             = Ok (Some registers) ->
             Z.even byte_count = true)).
Proof.
  intros H0. split; intros E.
  - rewrite new_main_read_fst, E, new_main_parse_function_3. split.
    + intros Hodd _. rewrite extract_registers_odd by assumption. reflexivity.
    + intros registers H. rewrite <- Z.negb_odd.
      destruct (Z.odd byte_count) eqn:Hodd; [| reflexivity].
      rewrite extract_registers_odd in H by assumption. discriminate H.
  - rewrite main_read_fst, E, main_parse_function_3. split.
    + intros Hodd _. rewrite extract_registers_odd by assumption. reflexivity.
    + intros registers H. rewrite <- Z.negb_odd.
      destruct (Z.odd byte_count) eqn:Hodd; [| reflexivity].
      rewrite extract_registers_odd in H by assumption. discriminate H.
Qed.

Lemma read_modbus_response_odd_byte_count_witness :
  fst (new_main.read_modbus_response 1
         (line_with [[0x51; 0x03; 0x03; 0x00; 0x01; 0x02; 0xAA; 0xBB]]))
  = Raise StructError.
Proof.
  refine (proj1 (proj1 (read_modbus_response_odd_byte_count
                          0x51 3 [0x00; 0x01; 0x02; 0xAA; 0xBB] None 1
                          (line_with [[0x51; 0x03; 0x03; 0x00; 0x01; 0x02;
                                       0xAA; 0xBB]])
                          _) _) _ _).
  - lia.
  - reflexivity.
  - reflexivity.
  - vm_compute. discriminate.
Defined.

(** ** Exception responses *)

Lemma receive_silent (complete : list Z -> bool) (ticks : nat)
    (sent : list (list Z)) (printed : list Line) :
  complete [] = false ->
  receive_with complete ticks [] (mkWorld [] sent printed)
  = ([], mkWorld [] sent printed).
Proof.
  intros C. induction ticks as [| ticks IH]; [reflexivity |].
  cbn [receive_with]. unfold ser_poll. cbn [rx app]. rewrite C. exact IH.
Qed.


(** ** The register count of a block and the scaling of its registers *)

Lemma show_pack_full (name : string) (cell_temps regs : list Z) (w : World) :
  List.length regs = 50%nat ->
  new_main.show_pack name cell_temps (Some regs) w
  = (Ok tt, mkWorld (rx w) (tx w)
                    (out w ++ pack_row name cell_temps regs :: fault_lines regs)).
Proof.
  intros H. unfold new_main.show_pack.
  assert (T : truthy (Some regs) = true)
    by (destruct regs; [discriminate H | reflexivity]).
  assert (L : (len regs =? address.REGISTER_COUNT) = true)
    by (unfold len; rewrite H; reflexivity).
  rewrite T, L. cbn [andb].
  unfold address.OFFSET_VOLTAGE, address.OFFSET_CURRENT, address.OFFSET_SOC,
    address.OFFSET_MIN_CELL_V, address.OFFSET_MAX_CELL_V,
    address.OFFSET_DIFF_CELL_V, address.OFFSET_CHG_DISCHG_STATUS,
    address.OFFSET_CYCLES, address.OFFSET_REMAINING_CAP,
    address.OFFSET_FAULT_1, address.OFFSET_FAULT_2, address.OFFSET_FAULT_3,
    address.OFFSET_FAULT_4, address.CURRENT_OFFSET.
  unfold bindM, lift, say, retM.
  rewrite !(index_nth regs _ 0) by (rewrite H; apply Nat.ltb_lt; reflexivity).
  unfold fault_lines, pack_row.
  destruct (address.get_fault_list (nth 46 regs 0) (nth 47 regs 0)
                                   (nth 48 regs 0) (nth 49 regs 0)).
  - reflexivity.
  - unfold print. cbn [rx tx out]. rewrite <- app_assoc. reflexivity.
Qed.

Lemma show_pack_other (name : string) (cell_temps regs : list Z) (w : World) :
  List.length regs <> 50%nat ->
  new_main.show_pack name cell_temps (Some regs) w
  = (Ok tt, print (TimeoutRow name) w).
Proof.
  intros H. unfold new_main.show_pack.
  assert (L : (len regs =? address.REGISTER_COUNT) = false).
  { apply Z.eqb_neq. unfold len, address.REGISTER_COUNT. lia. }
  rewrite L, andb_false_r. reflexivity.
Qed.

Lemma cell_temps_full (regs : list Z) :
  (4 <= List.length regs)%nat ->
  new_main.cell_temps_of (Some regs)
  = Ok [ nth 0 regs 0 - 40; nth 1 regs 0 - 40;
         nth 2 regs 0 - 40; nth 3 regs 0 - 40 ].
Proof.
  intros H. unfold new_main.cell_temps_of.
  assert (T : truthy (Some regs) = true)
    by (destruct regs; [cbn in H; lia | reflexivity]).
  assert (L : (4 <=? len regs) = true) by (apply Z.leb_le; unfold len; lia).
  rewrite T, L. cbn [andb].
  unfold address.BATT_TEMP_OFFSET_CELL_1, address.BATT_TEMP_OFFSET_CELL_2,
    address.BATT_TEMP_OFFSET_CELL_3, address.BATT_TEMP_OFFSET_CELL_4,
    address.TEMP_OFFSET.
  rewrite !(index_nth regs _ 0) by lia. reflexivity.
Qed.

Lemma cell_temps_short (regs : list Z) :
  (List.length regs < 4)%nat -> new_main.cell_temps_of (Some regs) = Ok [].
Proof.
  intros H. unfold new_main.cell_temps_of.
  assert (L : (4 <=? len regs) = false) by (apply Z.leb_gt; unfold len; lia).
  rewrite L, andb_false_r. reflexivity.
Qed.

(** C3 (as the code has it): the pack-data block is decoded only from a
    register list of exactly 50 entries; any other length, or no list at
    all, prints the battery's Timeout row and no data row.  The
    temperature block is decoded from any list of at least 4 entries, not
    only from 8: with fewer than 4, or no list, there are no cell
    temperatures. *)
Theorem register_count_gates
    (name : string) (cell_temps regs : list Z) (w : World) :
  (List.length regs = 50%nat ->
   new_main.show_pack name cell_temps (Some regs) w
   = (Ok tt, mkWorld (rx w) (tx w)
                     (out w ++ pack_row name cell_temps regs :: fault_lines regs)))
  /\ (List.length regs <> 50%nat ->
      new_main.show_pack name cell_temps (Some regs) w
      = (Ok tt, print (TimeoutRow name) w))
  /\ new_main.show_pack name cell_temps None w
     = (Ok tt, print (TimeoutRow name) w)
  /\ ((4 <= List.length regs)%nat ->
      new_main.cell_temps_of (Some regs)
      = Ok [ nth 0 regs 0 - 40; nth 1 regs 0 - 40;
             nth 2 regs 0 - 40; nth 3 regs 0 - 40 ])
  /\ ((List.length regs < 4)%nat -> new_main.cell_temps_of (Some regs) = Ok [])
  /\ new_main.cell_temps_of None = Ok [].
Proof.
  repeat split.
  - apply show_pack_full.
  - apply show_pack_other.
  - apply cell_temps_full.
  - apply cell_temps_short.
Qed.

Lemma register_count_gates_witness :
  new_main.show_pack "Battery 1" [] (Some [1; 2; 3]) (mkWorld [] [] [])
  = (Ok tt, print (TimeoutRow "Battery 1") (mkWorld [] [] []))
  /\ new_main.cell_temps_of (Some [45; 46; 47; 48; 49])
     = Ok [5; 6; 7; 8].
Proof.
  pose proof (register_count_gates "Battery 1" [] [1; 2; 3] (mkWorld [] [] []))
    as (_ & H & _).
  pose proof (register_count_gates "Battery 1" [] [45; 46; 47; 48; 49]
                (mkWorld [] [] [])) as (_ & _ & _ & T & _).
  split.
  - apply H. cbn. lia.
  - apply T. cbn. lia.
Defined.

(** A temperature answer of 4 registers, not 8, is decoded. *)
Lemma temperature_block_not_exactly_8 :
  ~ (forall regs : list Z,
        List.length regs <> 8%nat -> new_main.cell_temps_of (Some regs) = Ok []).
Proof.
  intros H. specialize (H [45; 46; 47; 48] ltac:(cbn; lia)).
  vm_compute in H. discriminate H.
Qed.

Lemma all_from_spec (p : Z -> bool) (count : nat) (z : Z) :
  all_from p count z = true ->
  forall n, z <= n < z + Z.of_nat count -> p n = true.
Proof.
  revert z. induction count as [| count IH]; intros z H n Hn.
  - lia.
  - cbn [all_from] in H. apply andb_true_iff in H as [Hz Hrest].
    destruct (Z.eq_dec n z) as [-> | Hne]; [exact Hz |].
    apply (IH (z + 1) Hrest). lia.
Qed.

(** Division by 10.0 is correctly rounded on every value the decoder
    divides: a register, or a register less 30000. *)
Lemma div10_nearest (n : Z) :
  -30000 <= n <= 65535 -> nearest_to_tenth (div10 n) n = true.
Proof.
  intros H.
  apply (all_from_spec (fun n => nearest_to_tenth (div10 n) n)
           (Z.to_nat 95536) (-30000)).
  - vm_compute. reflexivity.
  - lia.
Qed.

Lemma nth_u16 (regs : list Z) (i : nat) :
  Forall is_u16 regs -> is_u16 (nth i regs 0).
Proof.
  intros H. destruct (Nat.lt_ge_cases i (List.length regs)) as [Hi | Hi].
  - rewrite Forall_forall in H. apply H, nth_In, Hi.
  - rewrite nth_overflow by exact Hi. unfold is_u16. lia.
Qed.

Set Warnings "-inexact-float".

(** C4: from a pack-data block of 50 registers the decoder prints voltage
    = register 0 / 10.0, current = (register 1 - 30000) / 10.0 and state
    of charge = register 2 / 10.0, each the binary64 number nearest to the
    exact tenth; from a temperature block it gives each of the first four
    registers minus 40.  Raw voltage 1234 decodes to 123.4, raw current
    30050 to 5.0, raw current 29900 to -10.0, raw temperature 45 to 5. *)
Theorem register_scaling
    (name : string) (cell_temps regs temp_regs : list Z) (w : World) :
  List.length regs = 50%nat ->
  Forall is_u16 regs ->
  (4 <= List.length temp_regs)%nat ->
  let voltage := div10 (nth 0 regs 0) in
  let current := div10 (nth 1 regs 0 - 30000) in
  let soc := div10 (nth 2 regs 0) in
  (exists status min_v max_v diff_v,
      new_main.show_pack name cell_temps (Some regs) w
      = (Ok tt,
         mkWorld (rx w) (tx w)
                 (out w ++ DataRow name voltage current soc status
                                   min_v max_v diff_v cell_temps
                        :: fault_lines regs)))
  /\ nearest_to_tenth voltage (nth 0 regs 0) = true
  /\ nearest_to_tenth current (nth 1 regs 0 - 30000) = true
  /\ nearest_to_tenth soc (nth 2 regs 0) = true
  /\ new_main.cell_temps_of (Some temp_regs)
     = Ok [ nth 0 temp_regs 0 - 40; nth 1 temp_regs 0 - 40;
            nth 2 temp_regs 0 - 40; nth 3 temp_regs 0 - 40 ]
  /\ div10 1234 = 123.4%float
  /\ div10 (30050 - 30000) = 5%float
  /\ div10 (29900 - 30000) = (-10)%float
  /\ new_main.cell_temps_of (Some [45; 45; 45; 45; 0; 0; 0; 0])
     = Ok [5; 5; 5; 5].
Proof.
  intros Hlen Hu16 Htemp voltage current soc.
  pose proof (nth_u16 regs 0 Hu16) as U0.
  pose proof (nth_u16 regs 1 Hu16) as U1.
  pose proof (nth_u16 regs 2 Hu16) as U2.
  unfold is_u16 in U0, U1, U2.
  split; [| split; [| split; [| split; [| split]]]].
  - exists (new_main.status_of (nth 16 regs 0)),
      (nth 8 regs 0), (nth 6 regs 0), (nth 10 regs 0).
    apply show_pack_full, Hlen.
  - apply div10_nearest. lia.
  - apply div10_nearest. lia.
  - apply div10_nearest. lia.
  - apply cell_temps_full, Htemp.
  - repeat split; reflexivity.
Qed.

Lemma register_scaling_witness :
  nearest_to_tenth
    (div10 (nth 0 (1234 :: 30050 :: 987 :: repeat 0 47) 0)) 1234 = true
  /\ new_main.cell_temps_of (Some [45; 60; 39; 40])
     = Ok [5; 20; -1; 0].
Proof.
  pose proof (register_scaling "Battery 1" []
                (1234 :: 30050 :: 987 :: repeat 0 47) [45; 60; 39; 40]
                (mkWorld [] [] [])) as H.
  assert (U : Forall is_u16 (1234 :: 30050 :: 987 :: repeat 0 47)).
  { repeat (apply Forall_cons; [unfold is_u16; lia |]). apply Forall_nil. }
  specialize (H eq_refl U ltac:(cbn; lia)).
  destruct H as (_ & Hv & _ & _ & Ht & _).
  split; [exact Hv | exact Ht].
Defined.

(** ** One cycle over the configured batteries *)

(** C8 (where the code departs from it): with the three configured
    batteries, let the first one answer its temperature request with only
    the first five bytes of a frame and then fall silent.  The reader
    raises [struct.error] after the deadline, the exception leaves the
    cycle, nothing is printed for any of the three batteries, batteries 2
    and 3 are never sent a request, and [main] ends. *)
Theorem cycle_aborts_on_truncated_frame :
  new_main.cycle 3 new_main.BATTERIES
    (line_with [[0x51; 0x03; 0x10; 0x00; 0x01]])
  = (Raise StructError,
     mkWorld [] [[0x81; 0x03; 0x00; 0x30; 0x00; 0x08; 0x5B; 0xC3]] [])
  /\ new_main.main 5 3 (line_with [[0x51; 0x03; 0x10; 0x00; 0x01]])
     = (new_main.Failed StructError,
        mkWorld [] [[0x81; 0x03; 0x00; 0x30; 0x00; 0x08; 0x5B; 0xC3]] []).
Proof. split; vm_compute; reflexivity. Qed.


(** ** More on the checksum *)

Lemma u16_split (v : Z) :
  is_u16 v ->
  is_byte (Z.land v 255) /\ is_byte (Z.shiftr v 8)
  /\ Z.land v 255 + 256 * Z.shiftr v 8 = v.
Proof.
  intros H. split; [apply land255_byte |]. split; [apply shiftr8_byte, H |].
  assert (E : Z.land v 255 = v mod 256).
  { change 255 with (Z.ones 8). rewrite Z.land_ones by lia. reflexivity. }
  rewrite E, Z.shiftr_div_pow2 by lia. change (2 ^ 8) with 256.
  pose proof (Z.div_mod v 256 ltac:(lia)). lia.
Qed.

(** On a byte string [calculate_crc] cannot raise: it returns two bytes,
    the low byte of the register first. *)
Theorem calculate_crc_two_bytes (data : list Z) :
  Forall is_byte data ->
  exists lo hi,
    calculate_crc data = Ok [lo; hi]
    /\ is_byte lo /\ is_byte hi
    /\ lo + 256 * hi = crc_register data.
Proof.
  intros H. exists (Z.land (crc_register data) 255),
    (Z.shiftr (crc_register data) 8).
  split; [apply calculate_crc_ok, H |].
  apply u16_split, crc_register_u16, H.
Qed.

Lemma calculate_crc_two_bytes_witness :
  exists lo hi,
    calculate_crc [0x81; 0x03; 0x00; 0x38; 0x00; 0x32] = Ok [lo; hi]
    /\ is_byte lo /\ is_byte hi
    /\ lo + 256 * hi = crc_register [0x81; 0x03; 0x00; 0x38; 0x00; 0x32].
Proof.
  apply (calculate_crc_two_bytes [0x81; 0x03; 0x00; 0x38; 0x00; 0x32]).
  repeat (apply Forall_cons; [unfold is_byte; lia |]). apply Forall_nil.
Defined.

Lemma land_1_mod (x : Z) : Z.land x 1 = x mod 2.
Proof. change 1 with (Z.ones 1). rewrite Z.land_ones by lia. reflexivity. Qed.

(** Shifting out [n] zero bits never folds the polynomial in. *)
Lemma crc_shifts_zero_bits (n : nat) (x : Z) :
  x mod 2 ^ Z.of_nat n = 0 -> crc_shifts n x = x / 2 ^ Z.of_nat n.
Proof.
  revert x. induction n as [| n IH]; intros x H.
  - cbn. rewrite Z.div_1_r. reflexivity.
  - rewrite Nat2Z.inj_succ, Z.pow_succ_r in * by lia.
    assert (Hp : 0 < 2 ^ Z.of_nat n) by (apply Z.pow_pos_nonneg; lia).
    apply Z.mod_divide in H; [| lia]. destruct H as [k Hk].
    assert (E2 : x = 2 ^ Z.of_nat n * k * 2) by lia.
    assert (Hx2 : x mod 2 = 0) by (rewrite E2; apply Z.mod_mul; lia).
    assert (Hd : x / 2 = 2 ^ Z.of_nat n * k)
      by (rewrite E2; apply Z.div_mul; lia).
    cbn [crc_shifts]. unfold crc_shift.
    rewrite land_1_mod, Hx2. cbn [Z.eqb].
    rewrite Z.shiftr_div_pow2 by lia. change (2 ^ 1) with 2.
    rewrite IH.
    + rewrite Z.div_div by lia. reflexivity.
    + rewrite Hd. rewrite Z.mul_comm. apply Z.mod_mul. lia.
Qed.

Lemma lxor_low_byte (crc : Z) :
  Z.lxor crc (Z.land crc 255) = Z.shiftr crc 8 * 2 ^ 8.
Proof.
  rewrite <- Z.shiftl_mul_pow2 by lia.
  apply Z.bits_inj'. intros n Hn.
  rewrite Z.lxor_spec, Z.land_spec. change 255 with (Z.ones 8).
  destruct (Z.lt_ge_cases n 8) as [Hlt | Hge].
  - rewrite Z.ones_spec_low, Z.shiftl_spec_low by lia.
    destruct (Z.testbit crc n); reflexivity.
  - rewrite Z.ones_spec_high, Z.shiftl_spec, Z.shiftr_spec by lia.
    rewrite andb_false_r, xorb_false_r. f_equal. lia.
Qed.

(** Feeding a register its own two bytes, low byte first, empties it. *)
Lemma crc_own_bytes (crc : Z) :
  fold_left crc_byte [Z.land crc 255; Z.shiftr crc 8] crc = 0.
Proof.
  cbn [fold_left]. unfold crc_byte at 2.
  rewrite lxor_low_byte.
  rewrite (crc_shifts_zero_bits 8) by (apply Z.mod_mul; lia).
  change (2 ^ Z.of_nat 8) with (2 ^ 8). rewrite Z.div_mul by lia.
  unfold crc_byte. rewrite Z.lxor_nilpotent. reflexivity.
Qed.

(** The residue of a frame that carries its own checksum is zero: running
    the checksum over the data followed by the two bytes [calculate_crc]
    returned for it leaves the register at 0. *)
Theorem crc_residue_zero (data : list Z) :
  Forall is_byte data ->
  exists crc, calculate_crc data = Ok crc /\ crc_register (data ++ crc) = 0.
Proof.
  intros H. eexists. split; [apply calculate_crc_ok, H |].
  unfold crc_register. rewrite fold_left_app. apply crc_own_bytes.
Qed.

Lemma crc_residue_zero_witness :
  exists crc,
    calculate_crc [0x01; 0x03; 0x00; 0x00; 0x00; 0x0A] = Ok crc
    /\ crc_register ([0x01; 0x03; 0x00; 0x00; 0x00; 0x0A] ++ crc) = 0.
Proof.
  apply (crc_residue_zero [0x01; 0x03; 0x00; 0x00; 0x00; 0x0A]).
  repeat (apply Forall_cons; [unfold is_byte; lia |]). apply Forall_nil.
Defined.

Lemma testbit_15_small (y : Z) : 0 <= y < 32768 -> Z.testbit y 15 = false.
Proof.
  intros H. apply Z.testbit_false; [lia |].
  change (2 ^ 15) with 32768. rewrite Z.div_small by lia. reflexivity.
Qed.

Lemma crc_unshift_shift (crc : Z) : is_u16 crc -> crc_unshift (crc_shift crc) = crc.
Proof.
  unfold is_u16. intros H. unfold crc_shift, crc_unshift.
  assert (Hs : Z.shiftr crc 1 = crc / 2)
    by (rewrite Z.shiftr_div_pow2 by lia; reflexivity).
  assert (Hlow : 0 <= crc / 2 < 32768).
  { split; [apply Z.div_pos; lia | apply Z.div_lt_upper_bound; lia]. }
  pose proof (Z.div_mod crc 2 ltac:(lia)) as D.
  pose proof (Z.mod_pos_bound crc 2 ltac:(lia)) as B.
  rewrite land_1_mod, Hs.
  destruct (Z.eqb_spec (crc mod 2) 0) as [E | E].
  - rewrite testbit_15_small by exact Hlow. lia.
  - rewrite Z.lxor_spec, testbit_15_small by exact Hlow.
    change (Z.testbit 0xA001 15) with true. cbn [xorb].
    rewrite Z.lxor_assoc, Z.lxor_nilpotent, Z.lxor_0_r. lia.
Qed.

Lemma crc_shifts_u16 (n : nat) (crc : Z) : is_u16 crc -> is_u16 (crc_shifts n crc).
Proof.
  revert crc. induction n as [| n IH]; intros crc H; [exact H |].
  cbn [crc_shifts]. apply IH, crc_shift_u16, H.
Qed.

Lemma crc_shifts_inj (n : nat) (a b : Z) :
  is_u16 a -> is_u16 b -> crc_shifts n a = crc_shifts n b -> a = b.
Proof.
  revert a b. induction n as [| n IH]; intros a b Ha Hb E; [exact E |].
  cbn [crc_shifts] in E.
  apply IH in E; try (apply crc_shift_u16; assumption).
  rewrite <- (crc_unshift_shift a Ha), <- (crc_unshift_shift b Hb), E.
  reflexivity.
Qed.

Lemma lxor_u16 (crc byte : Z) : is_u16 crc -> is_byte byte -> is_u16 (Z.lxor crc byte).
Proof.
  unfold is_u16, is_byte. intros Hc Hb.
  pose proof (lxor_below 16 crc byte) as L.
  change (2 ^ 16) with 65536 in L. lia.
Qed.

Lemma lxor_cancel_l (a b c : Z) : Z.lxor a b = Z.lxor a c -> b = c.
Proof.
  intros E.
  rewrite <- (Z.lxor_0_l b), <- (Z.lxor_nilpotent a), Z.lxor_assoc, E.
  rewrite <- Z.lxor_assoc, Z.lxor_nilpotent. apply Z.lxor_0_l.
Qed.

Lemma lxor_cancel_r (a b c : Z) : Z.lxor a c = Z.lxor b c -> a = b.
Proof. rewrite !(Z.lxor_comm _ c). apply lxor_cancel_l. Qed.

(** From the same register, two different bytes lead to two different
    registers; and one byte keeps two different registers apart. *)
Lemma crc_byte_inj_byte (crc b b' : Z) :
  is_u16 crc -> is_byte b -> is_byte b' ->
  crc_byte crc b = crc_byte crc b' -> b = b'.
Proof.
  intros Hc Hb Hb' E. unfold crc_byte in E.
  apply crc_shifts_inj in E; try (apply lxor_u16; assumption).
  eapply lxor_cancel_l, E.
Qed.

Lemma crc_byte_inj_crc (crc crc' b : Z) :
  is_u16 crc -> is_u16 crc' -> is_byte b ->
  crc_byte crc b = crc_byte crc' b -> crc = crc'.
Proof.
  intros Hc Hc' Hb E. unfold crc_byte in E.
  apply crc_shifts_inj in E; try (apply lxor_u16; assumption).
  eapply lxor_cancel_r, E.
Qed.

Lemma crc_fold_inj (data : list Z) (crc crc' : Z) :
  Forall is_byte data -> is_u16 crc -> is_u16 crc' ->
  fold_left crc_byte data crc = fold_left crc_byte data crc' -> crc = crc'.
Proof.
  revert crc crc'. induction data as [| b data IH]; intros crc crc' Hd Hc Hc' E.
  - exact E.
  - inversion Hd; subst. cbn [fold_left] in E.
    apply IH in E; try assumption; try (apply crc_byte_u16; assumption).
    eapply crc_byte_inj_crc; eassumption.
Qed.

(** The checksum catches every corruption of a single byte: two byte
    strings that differ in exactly one position never have the same
    checksum register. *)
Theorem crc_detects_single_byte (before after : list Z) (b b' : Z) :
  Forall is_byte before -> Forall is_byte after ->
  is_byte b -> is_byte b' -> b <> b' ->
  crc_register (before ++ b :: after) <> crc_register (before ++ b' :: after).
Proof.
  intros Hbefore Hafter Hb Hb' Hne E. apply Hne.
  unfold crc_register in E. rewrite !fold_left_app in E. cbn [fold_left] in E.
  assert (Hc : is_u16 (fold_left crc_byte before 0xFFFF))
    by (apply crc_fold_u16; [unfold is_u16; lia | exact Hbefore]).
  apply crc_fold_inj in E; try assumption;
    try (apply crc_byte_u16; assumption).
  eapply crc_byte_inj_byte; eassumption.
Qed.

Lemma crc_detects_single_byte_witness :
  crc_register ([0x51; 0x03] ++ 0x02 :: [0x12; 0x34])
  <> crc_register ([0x51; 0x03] ++ 0x04 :: [0x12; 0x34]).
Proof.
  apply (crc_detects_single_byte [0x51; 0x03] [0x12; 0x34] 0x02 0x04);
    try (repeat (apply Forall_cons; [unfold is_byte; lia |]); apply Forall_nil);
    try (unfold is_byte; lia).
Defined.

(** ** The request on the wire *)

Lemma be_word_pack (v : Z) : Z.lor (Z.shiftl (Z.shiftr v 8) 8) (Z.land v 255) = v.
Proof.
  apply Z.bits_inj'. intros n Hn.
  rewrite Z.lor_spec, Z.land_spec. change 255 with (Z.ones 8).
  destruct (Z.lt_ge_cases n 8) as [Hlt | Hge].
  - rewrite Z.shiftl_spec_low, Z.ones_spec_low by lia.
    cbn [orb]. apply andb_true_r.
  - rewrite Z.shiftl_spec, Z.shiftr_spec, Z.ones_spec_high by lia.
    rewrite andb_false_r, orb_false_r. f_equal. lia.
Qed.

(** A request whose fields fit is 8 bytes long: the address, the function
    code, the start address and the count high byte first (both read back
    by the big-endian decoding the reader uses), and the checksum of the
    first six bytes, so that the checksum over all eight is 0. *)
Theorem request_frame_layout (slave_id function_code start_addr count : Z) :
  is_byte slave_id -> is_byte function_code ->
  is_u16 start_addr -> is_u16 count ->
  exists request,
    request_frame slave_id function_code start_addr count = Ok request
    /\ List.length request = 8%nat
    /\ Forall is_byte request
    /\ firstn 2 request = [slave_id; function_code]
    /\ be_words (firstn 4 (skipn 2 request)) = [start_addr; count]
    /\ calculate_crc (firstn 6 request) = Ok (skipn 6 request)
    /\ crc_register request = 0.
Proof.
  intros Hs Hf Ha Hc.
  pose proof (request_frame_ok slave_id function_code start_addr count
                Hs Hf Ha Hc) as E. cbv zeta in E.
  set (body := [slave_id; function_code; Z.shiftr start_addr 8;
                Z.land start_addr 255; Z.shiftr count 8; Z.land count 255])
    in *.
  assert (Hbody : Forall is_byte body).
  { unfold body.
    repeat (apply Forall_cons; [auto using shiftr8_byte, land255_byte |]).
    apply Forall_nil. }
  pose proof (u16_split _ (crc_register_u16 body Hbody)) as (Hlo & Hhi & _).
  eexists. split; [exact E |].
  split; [reflexivity |].
  split.
  { apply Forall_app. split; [exact Hbody |].
    repeat (apply Forall_cons; [assumption |]). apply Forall_nil. }
  split; [reflexivity |].
  split.
  { unfold body. cbn [app skipn firstn be_words].
    rewrite !be_word_pack. reflexivity. }
  split.
  { unfold body. cbn [app skipn firstn]. fold body.
    apply calculate_crc_ok, Hbody. }
  unfold crc_register. rewrite fold_left_app. apply crc_own_bytes.
Qed.

Lemma request_frame_layout_witness :
  exists request,
    request_frame 0x81 0x03 0x38 50 = Ok request
    /\ List.length request = 8%nat
    /\ Forall is_byte request
    /\ firstn 2 request = [0x81; 0x03]
    /\ be_words (firstn 4 (skipn 2 request)) = [0x38; 50]
    /\ calculate_crc (firstn 6 request) = Ok (skipn 6 request)
    /\ crc_register request = 0.
Proof.
  apply (request_frame_layout 0x81 0x03 0x38 50);
    unfold is_byte, is_u16; lia.
Defined.

(** ** Registers through the frame and back *)

Lemma be_words_bytes (regs : list Z) : be_words (be_bytes regs) = regs.
Proof.
  induction regs as [| v regs IH]; [reflexivity |].
  unfold be_bytes in *. cbn [flat_map app be_words].
  rewrite be_word_pack, IH. reflexivity.
Qed.

Lemma be_bytes_len (regs : list Z) : len (be_bytes regs) = 2 * len regs.
Proof.
  induction regs as [| v regs IH]; [reflexivity |].
  unfold be_bytes in *. cbn [flat_map app]. rewrite !len_cons, IH. lia.
Qed.

Lemma even_double (n : Z) : Z.even (2 * n) = true.
Proof. apply Z.even_spec. exists n. reflexivity. Qed.



(** ** Lines that never complete a frame *)

Section Incomplete.

Variable complete : list Z -> bool.

(** When no prefix of what the line delivers is a complete frame, the
    loop runs to the deadline and returns everything that arrived. *)
Lemma receive_with_incomplete (ticks : nat) (chunks : list (list Z))
    (response : list Z) (sent : list (list Z)) (printed : list Line) :
  (forall p q, response ++ List.concat chunks = p ++ q -> complete p = false) ->
  (List.length chunks <= ticks)%nat ->
  receive_with complete ticks response (mkWorld chunks sent printed)
  = (response ++ List.concat chunks, mkWorld [] sent printed).
Proof.
  revert chunks response.
  induction ticks as [| ticks IH]; intros chunks response Hinc Ht.
  - destruct chunks; [| cbn in Ht; lia].
    cbn. rewrite app_nil_r. reflexivity.
  - cbn [receive_with]. unfold ser_poll. cbn [rx tx out].
    destruct chunks as [| chunk chunks].
    + cbn [List.concat] in *.
      rewrite (Hinc (response ++ []) []) by (rewrite !app_nil_r; reflexivity).
      rewrite (IH [] (response ++ [])).
      * cbn [List.concat]. rewrite !app_nil_r. reflexivity.
      * intros p q E. apply (Hinc p q).
        cbn [List.concat] in E. rewrite !app_nil_r in E.
        rewrite app_nil_r. exact E.
      * cbn. lia.
    + cbn [List.concat] in *.
      rewrite (Hinc (response ++ chunk) (List.concat chunks))
        by (rewrite app_assoc; reflexivity).
      rewrite (IH chunks (response ++ chunk)).
      * rewrite app_assoc. reflexivity.
      * intros p q E. apply (Hinc p q). rewrite app_assoc. exact E.
      * cbn in Ht. lia.
Qed.

End Incomplete.

Lemma short_never_complete_new_main (p : list Z) :
  len p < 5 -> new_main.frame_complete p = false.
Proof.
  intros H. unfold new_main.frame_complete.
  destruct (Z.leb_spec 5 (len p)); [lia | reflexivity].
Qed.

Lemma short_never_complete_main (p : list Z) :
  len p < 5 -> main.frame_complete p = false.
Proof.
  intros H. unfold main.frame_complete.
  destruct (Z.leb_spec 5 (len p)); [lia | reflexivity].
Qed.

Lemma prefix_len (xs p q : list Z) : xs = p ++ q -> len p <= len xs.
Proof. intros ->. rewrite len_app. pose proof (len_nonneg q). lia. Qed.

(** The whole of what arrived, when it is shorter than 5 bytes. *)
Lemma receive_short (chunks sent : list (list Z)) (printed : list Line)
    (ticks : nat) :
  len (List.concat chunks) < 5 ->
  (List.length chunks <= ticks)%nat ->
  new_main.receive ticks [] (mkWorld chunks sent printed)
  = (List.concat chunks, mkWorld [] sent printed)
  /\ main.receive ticks [] (mkWorld chunks sent printed)
     = (List.concat chunks, mkWorld [] sent printed).
Proof.
  intros Hlen Ht. split.
  - rewrite new_main_receive_with.
    apply (receive_with_incomplete new_main.frame_complete ticks chunks []);
      [| exact Ht].
    intros p q E. apply short_never_complete_new_main.
    pose proof (prefix_len _ p q E). cbn [app] in *. lia.
  - rewrite main_receive_with.
    apply (receive_with_incomplete main.frame_complete ticks chunks []);
      [| exact Ht].
    intros p q E. apply short_never_complete_main.
    pose proof (prefix_len _ p q E). cbn [app] in *. lia.
Qed.

Lemma read_silent
    (chunks sent : list (list Z)) (printed : list Line)
    (expected : option Z) (ticks : nat) :
  List.concat chunks = [] ->
  (List.length chunks <= ticks)%nat ->
  new_main.read_modbus_response ticks (mkWorld chunks sent printed)
  = (Ok None, mkWorld [] sent printed)
  /\ main.read_modbus_response expected ticks (mkWorld chunks sent printed)
     = (Ok None, mkWorld [] sent printed).
Proof.
  intros Hsilent Ht.
  destruct (receive_short chunks sent printed ticks) as [E1 E2];
    [rewrite Hsilent; reflexivity | exact Ht |].
  unfold new_main.read_modbus_response, main.read_modbus_response.
  rewrite E1, E2, Hsilent. split; reflexivity.
Qed.

(** On a line that delivers nothing before the deadline both readers
    return [None]; nothing is written or printed. *)
Theorem silent_line_gives_none
    (chunks sent : list (list Z)) (printed : list Line)
    (expected : option Z) (ticks : nat) :
  List.concat chunks = [] ->
  (List.length chunks <= ticks)%nat ->
  new_main.read_modbus_response ticks (mkWorld chunks sent printed)
  = (Ok None, mkWorld [] sent printed)
  /\ main.read_modbus_response expected ticks (mkWorld chunks sent printed)
     = (Ok None, mkWorld [] sent printed).
Proof. exact (read_silent chunks sent printed expected ticks). Qed.

Lemma silent_line_gives_none_witness :
  new_main.read_modbus_response 5 (mkWorld [[]; []] [] [])
  = (Ok None, mkWorld [] [] [])
  /\ main.read_modbus_response None 5 (mkWorld [[]; []] [] [])
     = (Ok None, mkWorld [] [] []).
Proof.
  apply (silent_line_gives_none [[]; []] [] [] None 5);
    [reflexivity | cbn; lia].
Defined.

(** A response cut off after one byte, or after the two bytes of a
    function-3 header, makes both readers raise IndexError at the deadline;
    cut off after the two bytes of an exception header, [new_main.py]
    returns [None] and [main.py], which reads the error code, raises
    IndexError. *)
Theorem short_response_raises
    (chunks sent : list (list Z)) (printed : list Line)
    (expected : option Z) (ticks : nat) (b function_code : Z) :
  (List.length chunks <= ticks)%nat ->
  (List.concat chunks = [b] ->
   fst (new_main.read_modbus_response ticks (mkWorld chunks sent printed))
   = Raise IndexError
   /\ fst (main.read_modbus_response expected ticks
             (mkWorld chunks sent printed))
      = Raise IndexError)
  /\ (List.concat chunks = [b; 0x03] ->
      fst (new_main.read_modbus_response ticks (mkWorld chunks sent printed))
      = Raise IndexError
      /\ fst (main.read_modbus_response expected ticks
                (mkWorld chunks sent printed))
         = Raise IndexError)
  /\ (List.concat chunks = [b; function_code] -> 0x80 <= function_code ->
      fst (new_main.read_modbus_response ticks (mkWorld chunks sent printed))
      = Ok None
      /\ fst (main.read_modbus_response expected ticks
                (mkWorld chunks sent printed))
         = Raise IndexError).
Proof.
  intros Ht.
  assert (R : len (List.concat chunks) < 5 ->
              fst (new_main.read_modbus_response ticks
                     (mkWorld chunks sent printed))
              = new_main.parse_response (List.concat chunks)
              /\ fst (main.read_modbus_response expected ticks
                        (mkWorld chunks sent printed))
                 = main.parse_response (List.concat chunks)).
  { intros Hlen.
    destruct (receive_short chunks sent printed ticks Hlen Ht) as [E1 E2].
    rewrite new_main_read_fst, main_read_fst, E1, E2. split; reflexivity. }
  split; [| split].
  - intros E. rewrite E in R. destruct (R eq_refl) as [-> ->].
    split; reflexivity.
  - intros E. rewrite E in R. destruct (R eq_refl) as [-> ->].
    split; reflexivity.
  - intros E Hf. rewrite E in R. destruct (R eq_refl) as [-> ->].
    cbn [new_main.parse_response main.parse_response index nth_error bind].
    destruct (Z.leb_spec 128 function_code); [| lia].
    split; reflexivity.
Qed.

Lemma short_response_raises_witness :
  fst (new_main.read_modbus_response 3 (mkWorld [[]; [0xFF]] [] []))
  = Raise IndexError
  /\ fst (main.read_modbus_response None 3 (mkWorld [[0x51]; [0x83]] [] []))
     = Raise IndexError.
Proof.
  split.
  - apply (proj1 (short_response_raises [[]; [0xFF]] [] [] None 3 0xFF 0
                    ltac:(cbn; lia))).
    reflexivity.
  - apply (proj2 (proj2 (short_response_raises [[0x51]; [0x83]] [] [] None 3
                           0x51 0x83 ltac:(cbn; lia)))).
    + reflexivity.
    + lia.
Defined.

Lemma truncated_never_complete (slave_id byte_count : Z) (rest p q : list Z) :
  0 < byte_count -> len rest < byte_count ->
  slave_id :: 0x03 :: byte_count :: rest = p ++ q ->
  new_main.frame_complete p = false /\ main.frame_complete p = false.
Proof.
  intros H0 Hrest E.
  pose proof (prefix_len _ p q E) as Hp. rewrite !len_cons in Hp.
  unfold new_main.frame_complete, main.frame_complete.
  destruct (Z.leb_spec 5 (len p)) as [H5 |]; [| split; reflexivity].
  assert (L1 : nth 1 p 0 = 0x03).
  { rewrite <- (nth_prefix p q) by (unfold len in H5; lia).
    rewrite <- E. reflexivity. }
  assert (L2 : nth 2 p 0 = byte_count).
  { rewrite <- (nth_prefix p q) by (unfold len in H5; lia).
    rewrite <- E. reflexivity. }
  rewrite L1, L2, Z.eqb_refl.
  destruct (Z.ltb_spec 2 (len p)); [| lia].
  split; apply Z.leb_gt; lia.
Qed.

(** A function-3 response whose data bytes have not all arrived by the
    deadline makes both readers raise [struct.error] instead of returning
    [None]. *)
Theorem truncated_response_raises
    (slave_id byte_count : Z) (rest : list Z)
    (chunks sent : list (list Z)) (printed : list Line)
    (expected : option Z) (ticks : nat) :
  List.concat chunks = slave_id :: 0x03 :: byte_count :: rest ->
  0 < byte_count -> len rest < byte_count ->
  (List.length chunks <= ticks)%nat ->
  new_main.read_modbus_response ticks (mkWorld chunks sent printed)
  = (Raise StructError, mkWorld [] sent printed)
  /\ main.read_modbus_response expected ticks (mkWorld chunks sent printed)
     = (Raise StructError, mkWorld [] sent printed).
Proof.
  intros Hcat H0 Hrest Ht.
  assert (P : extract_registers byte_count
                (slice (slave_id :: 0x03 :: byte_count :: rest) 3
                       (3 + byte_count))
              = Raise StructError).
  { apply extract_registers_truncated; [exact H0 |].
    rewrite !len_cons. lia. }
  unfold new_main.read_modbus_response, main.read_modbus_response.
  rewrite new_main_receive_with, main_receive_with.
  rewrite !receive_with_incomplete; try exact Ht.
  - cbn [app]. rewrite Hcat, new_main_parse_function_3,
      main_parse_function_3, P. split; reflexivity.
  - intros p q E. cbn [app] in E. rewrite Hcat in E.
    apply (truncated_never_complete slave_id byte_count rest p q H0 Hrest E).
  - intros p q E. cbn [app] in E. rewrite Hcat in E.
    apply (truncated_never_complete slave_id byte_count rest p q H0 Hrest E).
Qed.

Lemma truncated_response_raises_witness :
  new_main.read_modbus_response 3
    (mkWorld [[0x51; 0x03; 0x10]; [0x00; 0x01]] [] [])
  = (Raise StructError, mkWorld [] [] [])
  /\ main.read_modbus_response None 3
       (mkWorld [[0x51; 0x03; 0x10]; [0x00; 0x01]] [] [])
     = (Raise StructError, mkWorld [] [] []).
Proof.
  apply (truncated_response_raises 0x51 0x10 [0x00; 0x01]
           [[0x51; 0x03; 0x10]; [0x00; 0x01]] [] [] None 3);
    [reflexivity | lia | cbn; lia | cbn; lia].
Defined.

(** ** The registers a reader returns *)

Lemma lor_below (n a b : Z) :
  0 < n -> 0 <= a < 2 ^ n -> 0 <= b < 2 ^ n -> 0 <= Z.lor a b < 2 ^ n.
Proof.
  intros Hn Ha Hb.
  assert (H0 : 0 <= Z.lor a b) by (apply Z.lor_nonneg; lia).
  split; [exact H0 |].
  destruct (Z.eq_dec (Z.lor a b) 0) as [E | E].
  - rewrite E. apply Z.pow_pos_nonneg; lia.
  - apply Z.log2_lt_pow2; [lia |].
    rewrite Z.log2_lor by lia.
    pose proof (log2_below n a Hn Ha). pose proof (log2_below n b Hn Hb). lia.
Qed.

Lemma be_word_u16 (hi lo : Z) :
  is_byte hi -> is_byte lo -> is_u16 (Z.lor (Z.shiftl hi 8) lo).
Proof.
  unfold is_byte, is_u16. intros Hh Hl.
  pose proof (lor_below 16 (Z.shiftl hi 8) lo) as L.
  rewrite Z.shiftl_mul_pow2 in L by lia.
  change (2 ^ 8) with 256 in L. change (2 ^ 16) with 65536 in L.
  rewrite Z.shiftl_mul_pow2 by lia. change (2 ^ 8) with 256. lia.
Qed.

Lemma be_words_u16 (bytes : list Z) :
  Forall is_byte bytes -> Forall is_u16 (be_words bytes).
Proof.
  revert bytes. fix IH 1. intros bytes H.
  destruct bytes as [| hi [| lo rest]]; cbn [be_words]; try constructor.
  - inversion H as [| ? ? Hh H']; subst.
    inversion H' as [| ? ? Hl H'']; subst.
    apply be_word_u16; assumption.
  - apply IH. inversion H as [| ? ? Hh H']; subst.
    inversion H'; subst. assumption.
Qed.

Lemma be_words_len (bytes : list Z) :
  Z.even (len bytes) = true -> 2 * len (be_words bytes) = len bytes.
Proof.
  revert bytes. fix IH 1. intros bytes H.
  destruct bytes as [| hi [| lo rest]]; cbn [be_words].
  - reflexivity.
  - discriminate H.
  - rewrite !len_cons in *.
    rewrite <- (IH rest); [lia |].
    rewrite <- H. replace (1 + (1 + len rest)) with (len rest + 2 * 1) by lia.
    rewrite Z.even_add_mul_2. reflexivity.
Qed.

Lemma slice_bytes (xs : list Z) (a b : Z) :
  Forall is_byte xs -> Forall is_byte (slice xs a b).
Proof.
  intros H. unfold slice.
  set (n := Z.to_nat a). set (m := Z.to_nat (b - a)).
  rewrite <- (firstn_skipn n xs) in H. apply Forall_app in H as [_ H].
  rewrite <- (firstn_skipn m (skipn n xs)) in H.
  apply Forall_app in H as [H _]. exact H.
Qed.

Lemma unpack_pairs_inv (passes : nat) (ahead registers out_regs : list Z) :
  unpack_pairs passes ahead registers = Ok out_regs ->
  (2 * passes <= List.length ahead)%nat.
Proof.
  intros H. destruct (Nat.le_gt_cases (2 * passes) (List.length ahead))
    as [Hle | Hgt]; [exact Hle |].
  rewrite unpack_pairs_short in H by exact Hgt. discriminate H.
Qed.

Lemma parse_registers_inv (response registers : list Z) :
  new_main.parse_response response = Ok (Some registers)
  \/ main.parse_response response = Ok (Some registers) ->
  exists slave_id byte_count rest,
    response = slave_id :: 0x03 :: byte_count :: rest
    /\ extract_registers byte_count (slice response 3 (3 + byte_count))
       = Ok registers.
Proof.
  intros H.
  destruct response as [| slave_id [| function_code rest]].
  - destruct H as [H | H]; discriminate H.
  - destruct H as [H | H]; discriminate H.
  - assert (F : function_code = 0x03
                /\ exists byte_count rest', rest = byte_count :: rest').
    { destruct H as [H | H];
        cbn [new_main.parse_response main.parse_response index nth_error bind]
          in H;
        destruct (0x80 <=? function_code);
        try (destruct rest; discriminate H);
        destruct (Z.eqb_spec function_code 3); try discriminate H;
        (split; [assumption |]); destruct rest as [| bc rest'];
        try discriminate H; eauto. }
    destruct F as (-> & byte_count & rest' & ->).
    exists slave_id, byte_count, rest'. split; [reflexivity |].
    destruct H as [H | H];
      [rewrite new_main_parse_function_3 in H
      | rewrite main_parse_function_3 in H];
      destruct (extract_registers byte_count _); try discriminate H;
      inversion H; reflexivity.
Qed.

(** Whenever either script's parser returns registers from a byte
    string, the function code was 3, the byte-count field is twice the
    number of registers, and every register is a 16-bit value. *)
Theorem parsed_registers_are_u16 (response registers : list Z) :
  Forall is_byte response ->
  new_main.parse_response response = Ok (Some registers)
  \/ main.parse_response response = Ok (Some registers) ->
  nth 1 response 0 = 0x03
  /\ 2 * len registers = nth 2 response 0
  /\ Forall is_u16 registers.
Proof.
  intros Hbytes H.
  destruct (parse_registers_inv response registers H)
    as (slave_id & byte_count & rest & -> & E).
  assert (H0 : 0 <= byte_count).
  { inversion Hbytes as [| ? ? _ H1]; subst.
    inversion H1 as [| ? ? _ H2]; subst.
    inversion H2 as [| ? ? Hb _]; subst. unfold is_byte in Hb. lia. }
  assert (Heven : Z.even byte_count = true).
  { rewrite <- Z.negb_odd. destruct (Z.odd byte_count) eqn:Hodd; [| reflexivity].
    rewrite extract_registers_odd in E by assumption. discriminate E. }
  set (data := slice (slave_id :: 3 :: byte_count :: rest) 3 (3 + byte_count))
    in *.
  rewrite extract_registers_pairs in E.
  pose proof (unpack_pairs_inv _ _ _ _ E) as Hlen.
  rewrite unpack_pairs_ok in E by exact Hlen. cbn [app] in E.
  injection E as E'. clear H. subst registers.
  pose proof (even_passes byte_count H0 Heven) as Hp.
  pose proof (slice_length_le (slave_id :: 3 :: byte_count :: rest) byte_count)
    as Hle. fold data in Hle.
  assert (Hd : List.length data = Z.to_nat byte_count) by lia.
  change (Z.to_nat ((byte_count + 1) / 2)
          + (Z.to_nat ((byte_count + 1) / 2) + 0))%nat
    with (2 * Z.to_nat ((byte_count + 1) / 2))%nat.
  rewrite Hp, <- Hd, firstn_all.
  assert (Hdata : Forall is_byte data).
  { apply slice_bytes, Hbytes. }
  split; [reflexivity |]. split.
  - cbn [nth]. rewrite be_words_len; unfold len; rewrite Hd; [lia |].
    rewrite Z2Nat.id by lia. exact Heven.
  - apply be_words_u16, Hdata.
Qed.

Lemma parsed_registers_are_u16_witness :
  nth 1 [0x51; 0x03; 0x02; 0x12; 0x34; 0x00; 0x00] 0 = 0x03
  /\ 2 * len [0x1234] = nth 2 [0x51; 0x03; 0x02; 0x12; 0x34; 0x00; 0x00] 0
  /\ Forall is_u16 [0x1234].
Proof.
  apply (parsed_registers_are_u16 [0x51; 0x03; 0x02; 0x12; 0x34; 0x00; 0x00]).
  - repeat (apply Forall_cons; [unfold is_byte; lia |]). apply Forall_nil.
  - left. reflexivity.
Defined.

(** ** What one cycle of [new_main.py] does to the port and the console *)

Lemma send_effect (slave_id function_code start_addr count : Z) (w : World) :
  (exists request,
      send_modbus_request slave_id function_code start_addr count w
      = (Ok tt, mkWorld (rx w) (tx w ++ [request]) (out w)))
  \/ send_modbus_request slave_id function_code start_addr count w
     = (Raise StructError, w).
Proof.
  unfold send_modbus_request, bindM, lift.
  assert (D : (is_byte slave_id /\ is_byte function_code /\
               is_u16 start_addr /\ is_u16 count)
              \/ ~ (is_byte slave_id /\ is_byte function_code /\
                    is_u16 start_addr /\ is_u16 count))
    by (unfold is_byte, is_u16; lia).
  destruct D as [(Hs & Hf & Ha & Hc) | D].
  - left. rewrite request_frame_ok by assumption. eexists. reflexivity.
  - right. rewrite request_frame_raise by exact D. reflexivity.
Qed.

Lemma receive_with_keeps (complete : list Z -> bool) (ticks : nat)
    (response : list Z) (w : World) :
  tx (snd (receive_with complete ticks response w)) = tx w
  /\ out (snd (receive_with complete ticks response w)) = out w.
Proof.
  revert response w. induction ticks as [| ticks IH]; intros response w.
  - split; reflexivity.
  - cbn [receive_with]. unfold ser_poll.
    destruct (rx w) as [| chunk later] eqn:R.
    + destruct (complete (response ++ [])); [split; reflexivity | apply IH].
    + destruct (complete (response ++ chunk)).
      * split; reflexivity.
      * destruct (IH (response ++ chunk) (mkWorld later (tx w) (out w)))
          as [T O]. split; assumption.
Qed.

Lemma parse_raises (response : list Z) (e : exn) :
  new_main.parse_response response = Raise e ->
  e = StructError \/ e = IndexError.
Proof.
  intros H.
  destruct response as [| slave_id [| function_code rest]];
    [cbn in H; discriminate H | right; cbn in H; congruence |].
  cbn [new_main.parse_response index nth_error bind] in H.
  destruct (0x80 <=? function_code); [discriminate H |].
  destruct (function_code =? 3); [| discriminate H].
  destruct rest as [| byte_count rest]; [right; cbn in H; congruence |].
  cbn [index nth_error bind] in H. rewrite extract_registers_pairs in H.
  left.
  match type of H with
  | context [unpack_pairs ?n ?a ?r] =>
      destruct (Nat.le_gt_cases (2 * n) (List.length a)) as [L | L];
      [rewrite unpack_pairs_ok in H by exact L; discriminate H
      | rewrite unpack_pairs_short in H by exact L; cbn in H; congruence]
  end.
Qed.

Lemma read_effect (ticks : nat) (w : World) :
  tx (snd (new_main.read_modbus_response ticks w)) = tx w
  /\ out (snd (new_main.read_modbus_response ticks w)) = out w
  /\ forall e, fst (new_main.read_modbus_response ticks w) = Raise e ->
               e = StructError \/ e = IndexError.
Proof.
  unfold new_main.read_modbus_response. rewrite new_main_receive_with.
  pose proof (receive_with_keeps new_main.frame_complete ticks [] w) as [T O].
  destruct (receive_with new_main.frame_complete ticks [] w) as [response w'].
  cbn [fst snd] in *. repeat split; try assumption.
  intros e. apply parse_raises.
Qed.

Lemma cell_temps_total (temp_registers : option (list Z)) :
  exists cell_temps, new_main.cell_temps_of temp_registers = Ok cell_temps.
Proof.
  destruct temp_registers as [regs |]; [| eexists; reflexivity].
  destruct (Nat.le_gt_cases 4 (List.length regs)) as [H | H].
  - eexists. apply cell_temps_full, H.
  - eexists. apply cell_temps_short, H.
Qed.

(** [show_pack] never raises and prints exactly one battery row first. *)
Lemma show_pack_effect (name : string) (cell_temps : list Z)
    (registers : option (list Z)) (w : World) :
  exists row more,
    new_main.show_pack name cell_temps registers w
    = (Ok tt, mkWorld (rx w) (tx w) (out w ++ row :: more))
    /\ is_row row = true /\ filter is_row more = [].
Proof.
  destruct registers as [regs |].
  - destruct (Nat.eq_dec (List.length regs) 50) as [H | H].
    + exists (pack_row name cell_temps regs), (fault_lines regs).
      split; [apply show_pack_full, H |]. split; [reflexivity |].
      unfold fault_lines. destruct (address.get_fault_list _ _ _ _); reflexivity.
    + exists (TimeoutRow name), []. split; [apply show_pack_other, H |].
      split; reflexivity.
  - exists (TimeoutRow name), []. repeat split.
Qed.

(** One battery: either both exchanges go through and exactly one row is
    printed after two requests, or an exception leaves the body with
    nothing printed for this battery. *)
Lemma poll_battery_effect (ticks : nat) (battery : Z * Z * string)
    (w w' : World) (r : result unit) :
  new_main.poll_battery ticks battery w = (r, w') ->
  (r = Ok tt
   /\ (exists lines, out w' = out w ++ lines /\ rows_of lines = 1%nat)
   /\ List.length (tx w') = (List.length (tx w) + 2)%nat)
  \/ (exists e,
         r = Raise e
         /\ (e = StructError \/ e = IndexError)
         /\ out w' = out w
         /\ (List.length (tx w') <= List.length (tx w) + 2)%nat).
Proof.
  destruct battery as [[request_id response_id] name].
  unfold new_main.poll_battery. intros E.
  unfold bindM at 1 in E.
  destruct (send_effect request_id 3 address.BATT_TEMP_START_ADDRESS
              address.BATT_TEMP_REGISTER_COUNT w) as [(req1 & S1) | S1];
    rewrite S1 in E.
  2: { injection E as <- <-. right. exists StructError.
       repeat split; auto; lia. }
  set (w1 := mkWorld (rx w) (tx w ++ [req1]) (out w)) in *.
  assert (L1 : List.length (tx w1) = (List.length (tx w) + 1)%nat)
    by (unfold w1; cbn [tx]; rewrite length_app; cbn [List.length]; lia).
  change (out w) with (out w1).
  unfold bindM at 1 in E.
  pose proof (read_effect ticks w1) as (T1 & O1 & R1).
  destruct (new_main.read_modbus_response ticks w1) as [[temp_registers | e] w2];
    cbn [fst snd] in *.
  2: { injection E as <- <-. right. exists e.
       split; [reflexivity |]. split; [apply R1; reflexivity |].
       split; [exact O1 |]. rewrite T1. lia. }
  unfold bindM at 1, lift in E.
  destruct (cell_temps_total temp_registers) as (cell_temps & C).
  rewrite C in E.
  unfold bindM at 1 in E.
  destruct (send_effect request_id 3 address.START_ADDRESS
              address.REGISTER_COUNT w2) as [(req2 & S2) | S2];
    rewrite S2 in E.
  2: { injection E as <- <-. right. exists StructError.
       split; [reflexivity |]. split; [left; reflexivity |].
       split; [exact O1 |]. rewrite T1. lia. }
  set (w3 := mkWorld (rx w2) (tx w2 ++ [req2]) (out w2)) in *.
  assert (L3 : List.length (tx w3) = (List.length (tx w2) + 1)%nat)
    by (unfold w3; cbn [tx]; rewrite length_app; cbn [List.length]; lia).
  assert (O3' : out w3 = out w2) by reflexivity.
  unfold bindM at 1 in E.
  pose proof (read_effect ticks w3) as (T3 & O3 & R3).
  destruct (new_main.read_modbus_response ticks w3) as [[registers | e] w4];
    cbn [fst snd] in *.
  2: { injection E as <- <-. right. exists e.
       split; [reflexivity |]. split; [apply R3; reflexivity |].
       split; [congruence |]. rewrite T3, L3, T1. lia. }
  destruct (show_pack_effect name cell_temps registers w4)
    as (row & more & P & Hrow & Hmore).
  rewrite P in E. injection E as <- <-. left.
  split; [reflexivity |]. cbn [tx out]. split.
  - exists (row :: more). split; [congruence |].
    unfold rows_of. cbn [filter]. rewrite Hrow, Hmore. reflexivity.
  - rewrite T3, L3, T1. lia.
Qed.

Lemma rows_of_app (xs ys : list Line) :
  rows_of (xs ++ ys) = (rows_of xs + rows_of ys)%nat.
Proof. unfold rows_of. rewrite filter_app, length_app. reflexivity. Qed.

(** A cycle prints one row for each battery it gets through.  When it
    ends normally every battery has exactly one row and has been sent two
    requests; when it ends in an exception, which can only be
    [struct.error] or IndexError, at least one battery has no row. *)
Theorem cycle_one_row_per_battery
    (ticks : nat) (batteries : list (Z * Z * string))
    (w w' : World) (r : result unit) :
  new_main.cycle ticks batteries w = (r, w') ->
  exists lines,
    out w' = out w ++ lines
    /\ (r = Ok tt ->
        rows_of lines = List.length batteries
        /\ List.length (tx w')
           = (List.length (tx w) + 2 * List.length batteries)%nat)
    /\ (forall e, r = Raise e ->
                  (e = StructError \/ e = IndexError)
                  /\ (rows_of lines < List.length batteries)%nat).
Proof.
  unfold new_main.cycle. revert w.
  induction batteries as [| battery batteries IH]; intros w E.
  - cbn in E. injection E as <- <-. exists [].
    split; [symmetry; apply app_nil_r |].
    split; [intros _; split; [reflexivity | cbn; lia] | discriminate].
  - cbn [for_each] in E. unfold bindM at 1 in E.
    destruct (new_main.poll_battery ticks battery w) as [r1 w1] eqn:P.
    apply poll_battery_effect in P
      as [(-> & (lines1 & O1 & R1) & T1) | (e1 & -> & He1 & O1 & T1)].
    + destruct (IH w1 E) as (lines & O & Hok & Hraise).
      exists (lines1 ++ lines).
      split; [rewrite O, O1, app_assoc; reflexivity |].
      rewrite rows_of_app, R1. cbn [List.length]. split.
      * intros Hr. destruct (Hok Hr) as [Hrows Htx]. lia.
      * intros e Hr. destruct (Hraise e Hr) as [He Hrows].
        split; [exact He | lia].
    + injection E as <- <-. exists [].
      split; [rewrite O1; symmetry; apply app_nil_r |].
      split; [discriminate |].
      intros e Hr. injection Hr as <-.
      split; [exact He1 | cbn; lia].
Qed.

Lemma cycle_one_row_per_battery_witness :
  exists lines,
    out (snd (new_main.cycle 2 new_main.BATTERIES (line_with [])))
    = out (line_with []) ++ lines
    /\ (Ok tt = Ok tt ->
        rows_of lines = List.length new_main.BATTERIES
        /\ List.length
             (tx (snd (new_main.cycle 2 new_main.BATTERIES (line_with []))))
           = (List.length (tx (line_with []))
              + 2 * List.length new_main.BATTERIES)%nat)
    /\ (forall e, Ok tt = Raise e ->
                  (e = StructError \/ e = IndexError)
                  /\ (rows_of lines < List.length new_main.BATTERIES)%nat).
Proof.
  apply (cycle_one_row_per_battery 2 new_main.BATTERIES (line_with [])
           (snd (new_main.cycle 2 new_main.BATTERIES (line_with [])))
           (Ok tt)).
  vm_compute. reflexivity.
Defined.

(** ** A silent bus *)

Lemma requests_of_ok (request_id : Z) :
  is_byte request_id ->
  exists temp_request pack_request,
    request_frame request_id 0x03 address.BATT_TEMP_START_ADDRESS
                  address.BATT_TEMP_REGISTER_COUNT = Ok temp_request
    /\ request_frame request_id 0x03 address.START_ADDRESS
                     address.REGISTER_COUNT = Ok pack_request
    /\ requests_of request_id = [temp_request; pack_request].
Proof.
  intros H. unfold requests_of.
  rewrite !request_frame_ok by (assumption || (vm_compute; intuition discriminate)).
  eexists. eexists. repeat split.
Qed.

Lemma send_ok (slave_id function_code start_addr count : Z)
    (request : list Z) (w : World) :
  request_frame slave_id function_code start_addr count = Ok request ->
  send_modbus_request slave_id function_code start_addr count w
  = (Ok tt, ser_write request w).
Proof.
  intros E. unfold send_modbus_request, bindM, lift. rewrite E. reflexivity.
Qed.

Lemma poll_battery_silent (ticks : nat) (battery : Z * Z * string)
    (sent : list (list Z)) (printed : list Line) :
  is_byte (request_id_of battery) ->
  new_main.poll_battery ticks battery (mkWorld [] sent printed)
  = (Ok tt, mkWorld [] (sent ++ requests_of (request_id_of battery))
                    (printed ++ [TimeoutRow (name_of battery)])).
Proof.
  destruct battery as [[request_id response_id] name].
  unfold request_id_of, name_of. cbn [fst snd]. intros H.
  destruct (requests_of_ok request_id H) as (req1 & req2 & E1 & E2 & ->).
  unfold new_main.poll_battery.
  unfold bindM at 1. rewrite (send_ok _ _ _ _ req1) by exact E1.
  unfold ser_write. cbn [rx tx out].
  unfold bindM at 1.
  rewrite (proj1 (read_silent [] _ _ None ticks eq_refl
                    ltac:(cbn; lia))).
  unfold bindM at 1, lift. cbn [new_main.cell_temps_of].
  unfold bindM at 1. rewrite (send_ok _ _ _ _ req2) by exact E2.
  unfold ser_write. cbn [rx tx out].
  unfold bindM at 1.
  rewrite (proj1 (read_silent [] _ _ None ticks eq_refl
                    ltac:(cbn; lia))).
  cbn [new_main.show_pack]. unfold say, print. cbn [rx tx out].
  rewrite <- app_assoc. reflexivity.
Qed.

Lemma cycle_silent
    (ticks : nat) (batteries : list (Z * Z * string))
    (sent : list (list Z)) (printed : list Line) :
  Forall (fun battery => is_byte (request_id_of battery)) batteries ->
  new_main.cycle ticks batteries (mkWorld [] sent printed)
  = (Ok tt,
     mkWorld []
       (sent ++ flat_map (fun battery => requests_of (request_id_of battery))
                         batteries)
       (printed ++ map (fun battery => TimeoutRow (name_of battery)) batteries)).
Proof.
  unfold new_main.cycle. revert sent printed.
  induction batteries as [| battery batteries IH]; intros sent printed H.
  - cbn. rewrite !app_nil_r. reflexivity.
  - inversion H as [| ? ? Hb Hrest]; subst.
    cbn [for_each flat_map map]. unfold bindM at 1.
    rewrite poll_battery_silent by exact Hb.
    rewrite IH by exact Hrest.
    rewrite <- !app_assoc. reflexivity.
Qed.

(** On a bus where nobody answers, a cycle raises nothing: every battery
    whose request address is a byte is sent its two requests, in order,
    and gets its Timeout row, in order. *)
Theorem cycle_on_silent_bus
    (ticks : nat) (batteries : list (Z * Z * string))
    (sent : list (list Z)) (printed : list Line) :
  Forall (fun battery => is_byte (request_id_of battery)) batteries ->
  new_main.cycle ticks batteries (mkWorld [] sent printed)
  = (Ok tt,
     mkWorld []
       (sent ++ flat_map (fun battery => requests_of (request_id_of battery))
                         batteries)
       (printed ++ map (fun battery => TimeoutRow (name_of battery)) batteries)).
Proof. exact (cycle_silent ticks batteries sent printed). Qed.

Lemma cycle_on_silent_bus_witness :
  new_main.cycle 4 new_main.BATTERIES (mkWorld [] [] [])
  = (Ok tt,
     mkWorld []
       ([] ++ flat_map (fun battery => requests_of (request_id_of battery))
                       new_main.BATTERIES)
       ([] ++ map (fun battery => TimeoutRow (name_of battery))
                  new_main.BATTERIES)).
Proof.
  apply (cycle_on_silent_bus 4 new_main.BATTERIES [] []).
  repeat (apply Forall_cons; [unfold is_byte, request_id_of; cbn; lia |]).
  apply Forall_nil.
Defined.

(** [main] on a silent bus never fails: whatever the number of cycles
    before the operator stops it, it has printed the three Timeout rows
    once per cycle and sent six requests per cycle. *)
Theorem main_on_silent_bus (cycles ticks : nat) :
  exists requests,
    new_main.main cycles ticks (line_with [])
    = (new_main.Stopped,
       mkWorld [] requests
         (List.concat
            (repeat (map (fun battery => TimeoutRow (name_of battery))
                         new_main.BATTERIES) cycles)))
    /\ List.length requests = (6 * cycles)%nat.
Proof.
  unfold line_with.
  assert (G : forall sent printed,
             exists more,
               new_main.main cycles ticks (mkWorld [] sent printed)
               = (new_main.Stopped,
                  mkWorld [] (sent ++ more)
                    (printed ++
                     List.concat
                       (repeat (map (fun battery => TimeoutRow (name_of battery))
                                    new_main.BATTERIES) cycles)))
               /\ List.length more = (6 * cycles)%nat).
  { induction cycles as [| cycles IH]; intros sent printed.
    - exists []. cbn. rewrite !app_nil_r. split; reflexivity.
    - cbn [new_main.main].
      rewrite cycle_silent.
      + destruct (IH (sent ++ flat_map (fun battery =>
                                          requests_of (request_id_of battery))
                                       new_main.BATTERIES)
                     (printed ++ map (fun battery => TimeoutRow (name_of battery))
                                     new_main.BATTERIES))
          as (more & -> & Hlen).
        exists (flat_map (fun battery => requests_of (request_id_of battery))
                         new_main.BATTERIES ++ more).
        split.
        * cbn [repeat List.concat]. rewrite <- !app_assoc. reflexivity.
        * rewrite length_app, Hlen.
          change (List.length
                    (flat_map (fun battery => requests_of (request_id_of battery))
                              new_main.BATTERIES)) with 6%nat.
          lia.
      + repeat (apply Forall_cons;
                [unfold is_byte, request_id_of; cbn; lia |]).
        apply Forall_nil. }
  destruct (G [] []) as (more & E & Hlen).
  exists more. split; [exact E | exact Hlen].
Qed.

(** ** A battery that answers *)

Lemma receive_one_chunk (complete : list Z -> bool) (frame : list Z)
    (later sent : list (list Z)) (printed : list Line) (ticks : nat) :
  complete frame = true -> (1 <= ticks)%nat ->
  receive_with complete ticks [] (mkWorld (frame :: later) sent printed)
  = (frame, mkWorld later sent printed).
Proof.
  intros C Ht. destruct ticks as [| ticks]; [lia |].
  cbn [receive_with]. unfold ser_poll. cbn [rx tx out app].
  rewrite C. reflexivity.
Qed.

Lemma read_one_frame (slave_id : Z) (regs : list Z) (c1 c2 : Z)
    (later sent : list (list Z)) (printed : list Line) (ticks : nat) :
  (1 <= ticks)%nat ->
  new_main.read_modbus_response ticks
    (mkWorld (normal_frame slave_id (be_bytes regs) c1 c2 :: later)
             sent printed)
  = (Ok (Some regs), mkWorld later sent printed).
Proof.
  intros Ht. unfold new_main.read_modbus_response.
  rewrite new_main_receive_with, receive_one_chunk;
    [| apply normal_frame_settles_new_main | exact Ht].
  assert (Heven : Z.even (len (be_bytes regs)) = true)
    by (rewrite be_bytes_len; apply even_double).
  rewrite (proj1 (parse_normal_frame slave_id (be_bytes regs) c1 c2 Heven)).
  rewrite be_words_bytes. reflexivity.
Qed.

(** When a battery answers both requests with whole frames, its registers
    reach the console: the row printed is the one decoded from the 50
    pack registers, with the four cell temperatures of the temperature
    block, followed by the faults line if a fault bit is set.  Neither the
    address in a response nor its two checksum bytes play any part. *)
Theorem poll_battery_decodes
    (ticks : nat) (request_id response_id : Z) (name : string)
    (temp_id pack_id a1 a2 b1 b2 : Z) (temp_regs regs : list Z)
    (later sent : list (list Z)) (printed : list Line) :
  is_byte request_id -> (1 <= ticks)%nat ->
  (4 <= List.length temp_regs)%nat -> List.length regs = 50%nat ->
  new_main.poll_battery ticks (request_id, response_id, name)
    (mkWorld (normal_frame temp_id (be_bytes temp_regs) a1 a2
              :: normal_frame pack_id (be_bytes regs) b1 b2 :: later)
             sent printed)
  = (Ok tt,
     mkWorld later (sent ++ requests_of request_id)
       (printed
        ++ pack_row name
             [ nth 0 temp_regs 0 - 40; nth 1 temp_regs 0 - 40;
               nth 2 temp_regs 0 - 40; nth 3 temp_regs 0 - 40 ] regs
        :: fault_lines regs)).
Proof.
  intros Hid Ht Htemp Hregs.
  destruct (requests_of_ok request_id Hid) as (req1 & req2 & E1 & E2 & ->).
  unfold new_main.poll_battery.
  unfold bindM at 1. rewrite (send_ok _ _ _ _ req1) by exact E1.
  unfold ser_write. cbn [rx tx out].
  unfold bindM at 1. rewrite read_one_frame by exact Ht.
  unfold bindM at 1, lift. rewrite cell_temps_full by exact Htemp.
  unfold bindM at 1. rewrite (send_ok _ _ _ _ req2) by exact E2.
  unfold ser_write. cbn [rx tx out].
  unfold bindM at 1. rewrite read_one_frame by exact Ht.
  rewrite show_pack_full by exact Hregs. cbn [rx tx out].
  rewrite <- app_assoc. reflexivity.
Qed.

Lemma poll_battery_decodes_witness :
  new_main.poll_battery 1 (0x81, 0x51, "Battery 1"%string)
    (mkWorld (normal_frame 0x51 (be_bytes [45; 46; 47; 48; 0; 0; 0; 0]) 0 0
              :: normal_frame 0x51
                   (be_bytes (534 :: 30050 :: 987 :: repeat 0 47)) 0 0
              :: [])
             [] [])
  = (Ok tt,
     mkWorld [] ([] ++ requests_of 0x81)
       ([]
        ++ pack_row "Battery 1"
             [ nth 0 [45; 46; 47; 48; 0; 0; 0; 0] 0 - 40;
               nth 1 [45; 46; 47; 48; 0; 0; 0; 0] 0 - 40;
               nth 2 [45; 46; 47; 48; 0; 0; 0; 0] 0 - 40;
               nth 3 [45; 46; 47; 48; 0; 0; 0; 0] 0 - 40 ]
             (534 :: 30050 :: 987 :: repeat 0 47)
        :: fault_lines (534 :: 30050 :: 987 :: repeat 0 47))).
Proof.
  apply (poll_battery_decodes 1 0x81 0x51 "Battery 1" 0x51 0x51 0 0 0 0
           [45; 46; 47; 48; 0; 0; 0; 0] (534 :: 30050 :: 987 :: repeat 0 47)
           [] [] []);
    [unfold is_byte; lia | lia | cbn; lia | reflexivity].
Defined.

(** ** Fault bits and labels *)

Lemma in_map_snd_unique {A : Type} (l : list (A * string)) (x y : A * string) :
  NoDup (map snd l) -> In x l -> In y l -> snd x = snd y -> x = y.
Proof.
  induction l as [| e l IH]; intros Hnd Hx Hy E; [contradiction |].
  cbn [map] in Hnd. inversion Hnd as [| ? ? Hnotin Hnd']; subst.
  destruct Hx as [-> | Hx], Hy as [-> | Hy].
  - reflexivity.
  - exfalso. apply Hnotin. rewrite E. apply in_map, Hy.
  - exfalso. apply Hnotin. rewrite <- E. apply in_map, Hx.
  - apply IH; assumption.
Qed.

Lemma fault_labels_NoDup : NoDup catalog.fault_labels.
Proof. apply distinct_NoDup. vm_compute. reflexivity. Qed.

Lemma label_iff_bit
    (f1 f2 f3 f4 : Z) (word : nat) (bit : Z) (label : string) :
  In (word, bit, label) catalog.fault_catalog ->
  (In label (address.get_fault_list f1 f2 f3 f4)
   <-> Z.testbit (catalog.fault_word f1 f2 f3 f4 word) bit = true).
Proof.
  intros Hin. rewrite get_fault_list_table. unfold catalog.decode_by_catalog.
  rewrite in_map_iff. split.
  - intros (e & He & Hf). apply filter_In in Hf as [He_in Hact].
    assert (e = (word, bit, label)).
    { apply (in_map_snd_unique catalog.fault_catalog);
        [exact fault_labels_NoDup | exact He_in | exact Hin | exact He]. }
    subst e. exact Hact.
  - intros Hbit. exists (word, bit, label). split; [reflexivity |].
    apply filter_In. split; [exact Hin | exact Hbit].
Qed.

(** A label is in the decoder's list exactly when its bit is set in its
    fault word: for each of the 54 entries of the table, the label appears
    if and only if the bit of the entry is 1. *)
Theorem fault_label_iff_bit
    (f1 f2 f3 f4 : Z) (word : nat) (bit : Z) (label : string) :
  In (word, bit, label) catalog.fault_catalog ->
  (In label (address.get_fault_list f1 f2 f3 f4)
   <-> Z.testbit (catalog.fault_word f1 f2 f3 f4 word) bit = true).
Proof. exact (label_iff_bit f1 f2 f3 f4 word bit label). Qed.

Lemma fault_label_iff_bit_witness :
  In "Short Circ"%string (address.get_fault_list 0 0 0 0x0400)
  <-> Z.testbit (catalog.fault_word 0 0 0 0x0400 4) 10 = true.
Proof.
  apply (fault_label_iff_bit 0 0 0 0x0400 4 10 "Short Circ").
  unfold catalog.fault_catalog. cbn [In].
  do 50 right. left. reflexivity.
Defined.

Lemma covered_entry (word : nat) (bit : Z) :
  covered word bit = true ->
  exists label, In (word, bit, label) catalog.fault_catalog.
Proof.
  unfold covered. intros H. apply existsb_exists in H as (e & Hin & He).
  destruct e as [[w b] label]. cbn [fst snd] in He.
  apply andb_true_iff in He as [Hw Hb].
  apply Nat.eqb_eq in Hw. apply Z.eqb_eq in Hb. subst.
  exists label. exact Hin.
Qed.

Lemma full_word_covered (word : nat) (bit : Z) :
  (word = 1 \/ word = 2 \/ word = 3)%nat -> 0 <= bit < 16 ->
  exists label, In (word, bit, label) catalog.fault_catalog.
Proof.
  intros Hw Hb. apply covered_entry.
  destruct Hw as [-> | [-> | ->]];
    apply (all_from_spec (covered _) 16 0); (reflexivity || lia).
Qed.

Lemma word4_covered (bit : Z) :
  8 <= bit < 14 ->
  exists label, In (4%nat, bit, label) catalog.fault_catalog.
Proof.
  intros Hb. apply covered_entry.
  apply (all_from_spec (covered 4) 6 8); (reflexivity || lia).
Qed.

Lemma entries_within_mask (word : nat) (bit : Z) (label : string) :
  In (word, bit, label) catalog.fault_catalog ->
  Z.testbit (decoded_mask word) bit = true.
Proof.
  intros Hin.
  assert (F : forallb (fun e => Z.testbit (decoded_mask (fst (fst e)))
                                          (snd (fst e)))
                      catalog.fault_catalog = true) by reflexivity.
  rewrite forallb_forall in F. exact (F _ Hin).
Qed.

Lemma filter_none {A : Type} (f : A -> bool) (l : list A) :
  (forall x, In x l -> f x = false) -> filter f l = [].
Proof.
  induction l as [| x l IH]; intros H; [reflexivity |].
  cbn [filter]. rewrite (H x (or_introl eq_refl)).
  apply IH. intros y Hy. apply H. right. exact Hy.
Qed.

Lemma testbit_FFFF (n : Z) : 16 <= n -> Z.testbit 0xFFFF n = false.
Proof. intros H. change 0xFFFF with (Z.ones 16). apply Z.ones_spec_high. lia. Qed.

Lemma testbit_3F00 (n : Z) : 0 <= n -> ~ 8 <= n < 14 -> Z.testbit 0x3F00 n = false.
Proof.
  intros H0 H. change 0x3F00 with (Z.shiftl (Z.ones 6) 8).
  destruct (Z.lt_ge_cases n 8).
  - apply Z.shiftl_spec_low. lia.
  - rewrite Z.shiftl_spec by lia. apply Z.ones_spec_high. lia.
Qed.

(** The decoder reports no fault exactly when every bit it decodes is 0:
    the fault list is empty if and only if the 16 low bits of words 1, 2
    and 3 and bits 8 to 13 of word 4 are all zero.  A word 4 with only
    low-byte bits, or only bits 14 and 15, set gives the empty list. *)
Theorem no_fault_iff_masked_zero (f1 f2 f3 f4 : Z) :
  address.get_fault_list f1 f2 f3 f4 = []
  <-> (Z.land f1 0xFFFF = 0 /\ Z.land f2 0xFFFF = 0
       /\ Z.land f3 0xFFFF = 0 /\ Z.land f4 0x3F00 = 0).
Proof.
  split.
  - intros E.
    assert (B : forall word bit label,
               In (word, bit, label) catalog.fault_catalog ->
               Z.testbit (catalog.fault_word f1 f2 f3 f4 word) bit = false).
    { intros word bit label Hin.
      destruct (Z.testbit (catalog.fault_word f1 f2 f3 f4 word) bit) eqn:T;
        [| reflexivity].
      apply (label_iff_bit f1 f2 f3 f4 word bit label Hin) in T.
      rewrite E in T. contradiction. }
    assert (W : forall (word : nat) (f : Z),
               (word = 1 \/ word = 2 \/ word = 3)%nat ->
               catalog.fault_word f1 f2 f3 f4 word = f ->
               Z.land f 0xFFFF = 0).
    { intros word f Hw Hf. apply Z.bits_inj'. intros n Hn.
      rewrite Z.land_spec, Z.bits_0.
      destruct (Z.lt_ge_cases n 16) as [Hlt | Hge].
      - destruct (full_word_covered word n Hw ltac:(lia)) as (label & Hin).
        rewrite <- Hf, (B word n label Hin). reflexivity.
      - rewrite testbit_FFFF by exact Hge. apply andb_false_r. }
    split; [apply (W 1%nat); auto |].
    split; [apply (W 2%nat); auto |].
    split; [apply (W 3%nat); auto |].
    apply Z.bits_inj'. intros n Hn. rewrite Z.land_spec, Z.bits_0.
    destruct (Z_le_dec 8 n) as [H8 |]; [destruct (Z_lt_dec n 14) as [H14 |] |].
    + destruct (word4_covered n ltac:(lia)) as (label & Hin).
      pose proof (B 4%nat n label Hin) as T. cbn [catalog.fault_word] in T.
      rewrite T. reflexivity.
    + rewrite testbit_3F00 by lia. apply andb_false_r.
    + rewrite testbit_3F00 by lia. apply andb_false_r.
  - intros (H1 & H2 & H3 & H4).
    rewrite get_fault_list_table. unfold catalog.decode_by_catalog.
    rewrite filter_none; [reflexivity |].
    intros [[word bit] label] Hin.
    pose proof (entries_within_mask word bit label Hin) as M.
    assert (Hz : Z.land (catalog.fault_word f1 f2 f3 f4 word)
                        (decoded_mask word) = 0).
    { destruct word as [| [| [| [| word]]]]; cbn; assumption. }
    unfold catalog.fault_active.
    assert (T : Z.testbit (Z.land (catalog.fault_word f1 f2 f3 f4 word)
                                  (decoded_mask word)) bit = false)
      by (rewrite Hz; apply Z.bits_0).
    rewrite Z.land_spec, M, andb_true_r in T. exact T.
Qed.

(** ** The overview of [main.py] *)

Lemma fold_min_spec (rest : list Z) (x : Z) :
  In (fold_left Z.min rest x) (x :: rest)
  /\ forall r, In r (x :: rest) -> fold_left Z.min rest x <= r.
Proof.
  revert x. induction rest as [| y rest IH]; intros x.
  - cbn. split; [left; reflexivity | intros r [<- | []]; lia].
  - cbn [fold_left]. destruct (IH (Z.min x y)) as [Hin Hle]. split.
    + destruct Hin as [E | Hin].
      * rewrite <- E. destruct (Z.min_spec x y) as [[_ ->] | [_ ->]];
          [left | right; left]; reflexivity.
      * right. right. exact Hin.
    + intros r Hr.
      pose proof (Hle (Z.min x y) (or_introl eq_refl)) as H0.
      destruct Hr as [<- | [<- | Hr]]; try lia.
      apply Hle. right. exact Hr.
Qed.

Lemma fold_max_spec (rest : list Z) (x : Z) :
  In (fold_left Z.max rest x) (x :: rest)
  /\ forall r, In r (x :: rest) -> r <= fold_left Z.max rest x.
Proof.
  revert x. induction rest as [| y rest IH]; intros x.
  - cbn. split; [left; reflexivity | intros r [<- | []]; lia].
  - cbn [fold_left]. destruct (IH (Z.max x y)) as [Hin Hle]. split.
    + destruct Hin as [E | Hin].
      * rewrite <- E. destruct (Z.max_spec x y) as [[_ ->] | [_ ->]];
          [right; left | left]; reflexivity.
      * right. right. exact Hin.
    + intros r Hr.
      pose proof (Hle (Z.max x y) (or_introl eq_refl)) as H0.
      destruct Hr as [<- | [<- | Hr]]; try lia.
      apply Hle. right. exact Hr.
Qed.

(** For a register list that is not empty the overview line is computed
    without an exception: its minimum and maximum are registers of the
    list that bound all the others, and the spread it shows is their
    difference, never negative.  On the empty list [min] raises
    ValueError. *)
Theorem overview_row_bounds (battery_name : string) (registers : list Z) :
  (registers <> [] ->
   exists total_v avg_v min_cell max_cell,
     main.overview_row battery_name registers
     = Ok (OverviewRow battery_name total_v avg_v min_cell max_cell
                       (max_cell - min_cell))
     /\ In min_cell registers /\ In max_cell registers
     /\ (forall r, In r registers -> min_cell <= r <= max_cell)
     /\ 0 <= max_cell - min_cell)
  /\ main.overview_row battery_name [] = Raise ValueError.
Proof.
  split; [| reflexivity].
  intros Hne. destruct registers as [| x rest]; [contradiction |].
  destruct (fold_min_spec rest x) as [Hmin_in Hmin].
  destruct (fold_max_spec rest x) as [Hmax_in Hmax].
  unfold main.overview_row. cbn [py_min py_max bind].
  unfold float_div_int.
  assert (L : (len (x :: rest) =? 0) = false).
  { apply Z.eqb_neq. rewrite len_cons. pose proof (len_nonneg rest). lia. }
  rewrite L. cbn [bind].
  eexists. eexists. eexists. eexists.
  split; [reflexivity |].
  split; [exact Hmin_in |]. split; [exact Hmax_in |].
  split.
  - intros r Hr. split; [apply Hmin, Hr | apply Hmax, Hr].
  - pose proof (Hmin x (or_introl eq_refl)).
    pose proof (Hmax x (or_introl eq_refl)). lia.
Qed.

Lemma overview_row_bounds_witness :
  exists total_v avg_v min_cell max_cell,
    main.overview_row "Battery 1" [3312; 3298; 3350]
    = Ok (OverviewRow "Battery 1" total_v avg_v min_cell max_cell
                      (max_cell - min_cell))
    /\ In min_cell [3312; 3298; 3350] /\ In max_cell [3312; 3298; 3350]
    /\ (forall r, In r [3312; 3298; 3350] -> min_cell <= r <= max_cell)
    /\ 0 <= max_cell - min_cell.
Proof.
  apply (proj1 (overview_row_bounds "Battery 1" [3312; 3298; 3350])).
  discriminate.
Defined.

(** ** One cycle of [main.py] *)

Lemma main_parse_raises (response : list Z) (e : exn) :
  main.parse_response response = Raise e ->
  e = StructError \/ e = IndexError.
Proof.
  intros H.
  destruct response as [| slave_id [| function_code rest]];
    [cbn in H; discriminate H | right; cbn in H; congruence |].
  cbn [main.parse_response index nth_error bind] in H.
  destruct (0x80 <=? function_code).
  { destruct rest; cbn [index nth_error bind] in H;
      [right; congruence | discriminate H]. }
  destruct (function_code =? 3); [| discriminate H].
  destruct rest as [| byte_count rest]; [right; cbn in H; congruence |].
  cbn [index nth_error bind] in H. rewrite extract_registers_pairs in H.
  left.
  match type of H with
  | context [unpack_pairs ?n ?a ?r] =>
      destruct (Nat.le_gt_cases (2 * n) (List.length a)) as [L | L];
      [rewrite unpack_pairs_ok in H by exact L; discriminate H
      | rewrite unpack_pairs_short in H by exact L; cbn in H; congruence]
  end.
Qed.

Lemma main_read_effect (expected : option Z) (ticks : nat) (w : World) :
  tx (snd (main.read_modbus_response expected ticks w)) = tx w
  /\ out (snd (main.read_modbus_response expected ticks w)) = out w
  /\ forall e, fst (main.read_modbus_response expected ticks w) = Raise e ->
               e = StructError \/ e = IndexError.
Proof.
  unfold main.read_modbus_response. rewrite main_receive_with.
  pose proof (receive_with_keeps main.frame_complete ticks [] w) as [T O].
  destruct (receive_with main.frame_complete ticks [] w) as [response w'].
  cbn [fst snd] in *. repeat split; try assumption.
  intros e. apply main_parse_raises.
Qed.

Lemma dict_set_filled (d : list (string * list Z)) (key : string)
    (value : list Z) :
  filled d -> value <> [] -> filled (dict_set d key value).
Proof.
  unfold filled. intros Hd Hv. induction d as [| [k v] d IH]; cbn [dict_set].
  - constructor; [exact Hv | constructor].
  - inversion Hd as [| ? ? Hk Hrest]; subst.
    destruct (String.eqb k key).
    + constructor; [exact Hv | exact Hrest].
    + constructor; [exact Hk | apply IH, Hrest].
Qed.

Lemma dict_set_length (d : list (string * list Z)) (key : string)
    (value : list Z) :
  (List.length (dict_set d key value) <= S (List.length d))%nat.
Proof.
  induction d as [| [k v] d IH]; cbn [dict_set List.length]; [lia |].
  destruct (String.eqb k key); cbn [List.length]; lia.
Qed.

(** The first loop: it prints nothing, an exception of it is
    [struct.error] or IndexError, and the dict it builds holds only
    register lists that are not empty, at most one per battery. *)
Lemma poll_all_effect (ticks : nat) (batteries : list (Z * Z * string))
    (d : list (string * list Z)) (w w' : World)
    (r : result (list (string * list Z))) :
  filled d ->
  main.poll_all ticks batteries d w = (r, w') ->
  out w' = out w
  /\ ((exists d', r = Ok d' /\ filled d'
                  /\ (List.length d'
                      <= List.length d + List.length batteries)%nat)
      \/ (exists e, r = Raise e /\ (e = StructError \/ e = IndexError))).
Proof.
  revert d w. induction batteries as [| [[request_id response_id] name] rest IH];
    intros d w Hd E.
  - cbn in E. injection E as <- <-. split; [reflexivity |].
    left. exists d. repeat split; [exact Hd | lia].
  - cbn [main.poll_all] in E. unfold bindM at 1 in E.
    destruct (send_effect request_id 3 0 16 w) as [(req & S1) | S1];
      rewrite S1 in E.
    2: { injection E as <- <-. split; [reflexivity |].
         right. exists StructError. split; [reflexivity | left; reflexivity]. }
    set (w1 := mkWorld (rx w) (tx w ++ [req]) (out w)) in *.
    unfold bindM at 1 in E.
    pose proof (main_read_effect (Some response_id) ticks w1) as (T1 & O1 & R1).
    destruct (main.read_modbus_response (Some response_id) ticks w1)
      as [[registers | e] w2]; cbn [fst snd] in *.
    2: { injection E as <- <-. split; [exact O1 |].
         right. exists e. split; [reflexivity | apply R1; reflexivity]. }
    destruct registers as [[| r0 regs] |].
    + destruct (IH d w2 Hd E) as [O [(d' & -> & Hf & Hl) | Hraise]].
      * split; [rewrite O, O1; reflexivity |]. left. exists d'.
        repeat split; [exact Hf | cbn [List.length]; lia].
      * split; [rewrite O, O1; reflexivity | right; exact Hraise].
    + assert (Hd' : filled (dict_set d name (r0 :: regs)))
        by (apply dict_set_filled; [exact Hd | discriminate]).
      destruct (IH _ w2 Hd' E) as [O [(d' & -> & Hf & Hl) | Hraise]].
      * split; [rewrite O, O1; reflexivity |]. left. exists d'.
        pose proof (dict_set_length d name (r0 :: regs)).
        repeat split; [exact Hf | cbn [List.length]; lia].
      * split; [rewrite O, O1; reflexivity | right; exact Hraise].
    + destruct (IH d w2 Hd E) as [O [(d' & -> & Hf & Hl) | Hraise]].
      * split; [rewrite O, O1; reflexivity |]. left. exists d'.
        repeat split; [exact Hf | cbn [List.length]; lia].
      * split; [rewrite O, O1; reflexivity | right; exact Hraise].
Qed.

Lemma overview_row_ok (battery_name : string) (registers : list Z) :
  registers <> [] ->
  exists row,
    main.overview_row battery_name registers = Ok row /\ row <> NoBatteries.
Proof.
  intros Hne. destruct registers as [| x rest]; [contradiction |].
  unfold main.overview_row. cbn [py_min py_max bind].
  unfold float_div_int.
  assert (L : (len (x :: rest) =? 0) = false).
  { apply Z.eqb_neq. rewrite len_cons. pose proof (len_nonneg rest). lia. }
  rewrite L. eexists. split; [reflexivity | discriminate].
Qed.

Lemma overview_step (k : string) (v : list Z) (row : Line) (w : World) :
  main.overview_row k v = Ok row ->
  (row <~ lift (main.overview_row k v) ;; say row) w = (Ok tt, print row w).
Proof. intros E. unfold bindM, lift, say. rewrite E. reflexivity. Qed.

Lemma overview_lines (d : list (string * list Z)) (w : World) :
  filled d ->
  exists lines,
    for_each d
      (fun item =>
         row <~ lift (main.overview_row (fst item) (snd item)) ;; say row) w
    = (Ok tt, mkWorld (rx w) (tx w) (out w ++ lines))
    /\ List.length lines = List.length d
    /\ Forall (fun l => l <> NoBatteries) lines.
Proof.
  revert w. induction d as [| [k v] d IH]; intros w Hd.
  - exists []. cbn. rewrite app_nil_r. destruct w.
    split; [reflexivity |]. split; [reflexivity | constructor].
  - inversion Hd as [| ? ? Hv Hrest]; subst. cbn [fst snd] in Hv.
    destruct (overview_row_ok k v Hv) as (row & Hrow & Hnb).
    cbn [for_each fst snd]. unfold bindM at 1.
    rewrite (overview_step k v row w Hrow). unfold print.
    destruct (IH (mkWorld (rx w) (tx w) (out w ++ [row])) Hrest)
      as (lines & -> & Hlen & Hall).
    exists (row :: lines). cbn [rx tx out List.length].
    rewrite <- app_assoc.
    split; [reflexivity |]. split; [lia | constructor; assumption].
Qed.

(** A cycle of [main.py] can only raise what the reader raises:
    [struct.error] or IndexError.  The overview never fails on [min],
    [max] or the division, because only register lists that are not empty
    are kept; when the cycle ends normally it has printed either one
    overview line per battery kept, at most one per configured battery, or
    the single "no batteries" line. *)
Theorem main_cycle_outcomes
    (ticks : nat) (batteries : list (Z * Z * string))
    (w w' : World) (r : result unit) :
  main.cycle ticks batteries w = (r, w') ->
  (r = Ok tt
   /\ exists lines,
       out w' = out w ++ lines
       /\ (lines = [NoBatteries]
           \/ (lines <> []
               /\ Forall (fun l => l <> NoBatteries) lines
               /\ (List.length lines <= List.length batteries)%nat)))
  \/ (exists e, r = Raise e /\ (e = StructError \/ e = IndexError)
                /\ out w' = out w).
Proof.
  unfold main.cycle. intros E. unfold bindM at 1 in E.
  destruct (main.poll_all ticks batteries [] w) as [r1 w1] eqn:P.
  apply poll_all_effect in P as [O1 [(d & -> & Hf & Hl) | (e & -> & He)]];
    [| | constructor].
  - left. unfold main.show_overview in E. unfold bindM at 1 in E.
    destruct (overview_lines d w1 Hf) as (lines & L & Hlen & Hall).
    rewrite L in E.
    destruct d as [| item d].
    + destruct lines; [| discriminate Hlen].
      unfold say, print in E. cbn [rx tx out] in E.
      injection E as <- <-. split; [reflexivity |].
      exists [NoBatteries]. cbn [out]. rewrite app_nil_r, O1.
      split; [reflexivity | left; reflexivity].
    + unfold retM in E. injection E as <- <-. split; [reflexivity |].
      exists lines. cbn [out]. rewrite O1. split; [reflexivity |].
      right. split; [destruct lines; [discriminate Hlen | discriminate] |].
      split; [exact Hall | cbn [List.length] in *; lia].
  - right. exists e. injection E as <- <-. repeat split; assumption.
Qed.

Lemma main_cycle_outcomes_witness :
  (Ok tt = Ok tt
   /\ exists lines,
       out (snd (main.cycle 2 main.BATTERIES (line_with [])))
       = out (line_with []) ++ lines
       /\ (lines = [NoBatteries]
           \/ (lines <> []
               /\ Forall (fun l => l <> NoBatteries) lines
               /\ (List.length lines <= List.length main.BATTERIES)%nat)))
  \/ (exists e, Ok tt = Raise e /\ (e = StructError \/ e = IndexError)
                /\ out (snd (main.cycle 2 main.BATTERIES (line_with [])))
                   = out (line_with [])).
Proof.
  apply (main_cycle_outcomes 2 main.BATTERIES (line_with [])
           (snd (main.cycle 2 main.BATTERIES (line_with []))) (Ok tt)).
  vm_compute. reflexivity.
Defined.

(** ** The two readers side by side *)

(** On any response of at least three bytes the parser of [main.py] and
    the parser of [new_main.py] give the same result, exception included;
    they can differ only on a response cut off before byte 2. *)
Theorem parsers_agree_from_three_bytes (response : list Z) :
  3 <= len response ->
  main.parse_response response = new_main.parse_response response.
Proof.
  intros H.
  destruct response as [| slave_id [| function_code [| byte_2 rest]]];
    try (rewrite ?len_cons in H; change (len (@nil Z)) with 0 in H; lia).
  cbn [main.parse_response new_main.parse_response index nth_error bind].
  destruct (0x80 <=? function_code); reflexivity.
Qed.

Lemma parsers_agree_from_three_bytes_witness :
  main.parse_response [0x51; 0x83; 0x02; 0xC0; 0xF1]
  = new_main.parse_response [0x51; 0x83; 0x02; 0xC0; 0xF1].
Proof.
  apply (parsers_agree_from_three_bytes [0x51; 0x83; 0x02; 0xC0; 0xF1]).
  vm_compute. discriminate.
Defined.

(** ** The shape of a fault list *)

Lemma NoDup_map_filter {A B : Type} (g : A -> B) (f : A -> bool) (l : list A) :
  NoDup (map g l) -> NoDup (map g (filter f l)).
Proof.
  induction l as [| x l IH]; intros H; [constructor |].
  cbn [map] in H. inversion H as [| ? ? Hnotin Hnd]; subst.
  cbn [filter]. destruct (f x); [| apply IH, Hnd].
  cbn [map]. constructor; [| apply IH, Hnd].
  intros Hin. apply Hnotin.
  apply in_map_iff in Hin as (y & <- & Hy).
  apply in_map. apply filter_In in Hy. apply Hy.
Qed.

Lemma filter_length_le {A : Type} (f : A -> bool) (l : list A) :
  (List.length (filter f l) <= List.length l)%nat.
Proof.
  induction l as [| x l IH]; [cbn; lia |].
  cbn [filter]. destruct (f x); cbn [List.length]; lia.
Qed.

(** Whatever the four fault words are, no label is reported twice and the
    list has at most 54 labels; it has all 54 when every decoded bit is
    set. *)
Theorem fault_list_shape (f1 f2 f3 f4 : Z) :
  NoDup (address.get_fault_list f1 f2 f3 f4)
  /\ (List.length (address.get_fault_list f1 f2 f3 f4) <= 54)%nat
  /\ List.length (address.get_fault_list 0xFFFF 0xFFFF 0xFFFF 0x3F00) = 54%nat.
Proof.
  rewrite (get_fault_list_table f1 f2 f3 f4). unfold catalog.decode_by_catalog.
  split; [| split].
  - apply NoDup_map_filter. exact fault_labels_NoDup.
  - rewrite length_map.
    pose proof (filter_length_le (catalog.fault_active f1 f2 f3 f4)
                  catalog.fault_catalog) as L.
    change (List.length catalog.fault_catalog) with 54%nat in L. exact L.
  - vm_compute. reflexivity.
Qed.

(** ** Exception responses, and where each reader stops *)






